(** * ZeroWaste: a shallow embedding of [src/App.tsx]

    The application is one React component.  Its state is the tuple of
    [useState] cells; an event handler runs to its end before the next
    event is taken, reads the cells of the last render and writes some of
    them, so a handler is a function from states to states.  The outside
    world is the clock ([Date.now], [new Date]) and [localStorage]: the
    clock readings are explicit arguments of what takes them, and
    [localStorage] is a finite map from keys to strings.

    JavaScript strings are sequences of UTF-16 code units.  This development
    covers the code units U+0000 .. U+00FF: a [string] is read as such a
    sequence, one [ascii] per code unit.  On that range [toLowerCase],
    [includes] and [JSON.stringify] are modelled exactly, and so is
    [JSON.parse] on every text but those that name a code unit above U+00FF
    by a [\u] escape, for which the model answers [OutsideModel].

    Above that range the lower case of a code unit can depend on its
    neighbours.  The listing is therefore modelled a second time over code
    units of any value ([Wide]), with [toLowerCase] as a parameter of the
    filter, and as the tables of Unicode give it on a repertoire with the
    Greek letters; on the range U+0000 .. U+00FF the two listings are
    proved to be the same.

    [localStorage.setItem] is modelled as the write that succeeds
    ([setItem]) and as the call that throws when the browser has no room
    ([trySetItem]). *)

From Stdlib Require Import ZArith Ascii String DecimalString Lia.
From Stdlib Require DecimalPos DecimalZ.
From Stdlib Require Import Sorted.
From stdpp Require Import base option list strings gmap.

Set Warnings "-register-all".

Local Open Scope Z_scope.

(** ** Strings *)

Module JSString.

(** One step of [String.prototype.toLowerCase] on the code units
    U+0000 .. U+00FF: the simple lower-case mapping of Basic Latin (A-Z)
    and of the Latin-1 Supplement (U+00C0 .. U+00DE except the
    multiplication sign U+00D7).  No unit of the range is lowered by its
    context; [Wide.lowerAt] is the step with its context. *)
Definition lowerUnit (c : ascii) : ascii :=
  let n := N_of_ascii c in
  if ((65 <=? n) && (n <=? 90) ||
      (192 <=? n) && (n <=? 222) && negb (n =? 215))%N
  then ascii_of_N (n + 32)
  else c.

Fixpoint toLowerCase (s : string) : string :=
  match s with
  | EmptyString => EmptyString
  | String c s' => String (lowerUnit c) (toLowerCase s')
  end.

(** [s.includes(searchString)]: some suffix of [s] starts with
    [searchString]. *)
Fixpoint includes (s searchString : string) : bool :=
  String.prefix searchString s ||
  match s with
  | EmptyString => false
  | String _ s' => includes s' searchString
  end.

(** ToBoolean on a string: only the empty string is falsy. *)
Definition truthy (s : string) : bool :=
  match s with EmptyString => false | String _ _ => true end.

(** [a || b] on strings. *)
Definition or_else (a b : string) : string := if truthy a then a else b.

End JSString.

(** ** Numbers and dates *)

(** [Number.prototype.toString] on an integral clock reading: its decimal
    digits (time values stay far below 1e21, where JavaScript turns to the
    exponent notation). *)
Definition Number_toString (n : Z) : string :=
  NilZero.string_of_int (Z.to_int n).

Module JSDate.

(** A [Date] object is its time value: milliseconds since the epoch.
    [new Date()] always yields a valid one. *)
Definition t := Z.

Definition msPerDay : Z := 86400000.

Definition digit (d : Z) : ascii := ascii_of_N (48 + Z.to_N (d mod 10)).

(** The [width] low decimal digits of [n], most significant first, in
    front of [acc]. *)
Fixpoint padded (width : nat) (n : Z) (acc : string) : string :=
  match width with
  | O => acc
  | S w => padded w (n / 10) (String (digit n) acc)
  end.

(** Year, month and day of a day number counted from 1970-01-01
    (proleptic Gregorian calendar). *)
Definition civil (day : Z) : Z * Z * Z :=
  let z := day + 719468 in
  let era := z / 146097 in
  let doe := z - era * 146097 in
  let yoe := (doe - doe / 1460 + doe / 36524 - doe / 146096) / 365 in
  let doy := doe - (365 * yoe + yoe / 4 - yoe / 100) in
  let mp := (5 * doy + 2) / 153 in
  let d := doy - (153 * mp + 2) / 5 + 1 in
  let m := if mp <? 10 then mp + 3 else mp - 9 in
  let y := yoe + era * 400 + (if m <=? 2 then 1 else 0) in
  (y, m, d).

Definition yearString (y : Z) : string :=
  if (0 <=? y) && (y <=? 9999) then padded 4 y ""
  else String (if y <? 0 then "-"%char else "+"%char) (padded 6 (Z.abs y) "").

(** [Date.prototype.toISOString]: YYYY-MM-DDTHH:mm:ss.sssZ, with the
    expanded six-digit year outside 0 .. 9999. *)
Definition toISOString (tv : t) : string :=
  let '(y, m, d) := civil (tv / msPerDay) in
  let ms := tv mod msPerDay in
  yearString y +:+
  String "-" (padded 2 m
  (String "-" (padded 2 d
  (String "T" (padded 2 (ms / 3600000)
  (String ":" (padded 2 (ms / 60000 mod 60)
  (String ":" (padded 2 (ms / 1000 mod 60)
  (String "." (padded 3 (ms mod 1000) "Z"))))))))))).

End JSDate.

(** ** Data model *)

Inductive Role := donor | receiver | ngo.

(** [type UserRole = 'donor' | 'receiver' | 'ngo' | null] *)
Definition UserRole := option Role.

Inductive FoodCategory := fruits | vegetables | dairy | bakery | meals | other.

#[global] Instance Role_eq_dec : EqDecision Role.
Proof. solve_decision. Defined.

#[global] Instance FoodCategory_eq_dec : EqDecision FoodCategory.
Proof. solve_decision. Defined.

(** [FoodCategory | 'all'], the type of [selectedCategory]. *)
Inductive CategoryFilter := all | only (c : FoodCategory).

#[global] Instance CategoryFilter_eq_dec : EqDecision CategoryFilter.
Proof. solve_decision. Defined.

(** The field [postedAt] is declared a [Date]; at run time it is a [Date]
    object for an item made in this session and the string [JSON.parse]
    returned for an item read back from the store. *)
Inductive PostedAt :=
| DateObject (tv : JSDate.t)
| DateString (s : string).

Module FoodItem.
Record t := mk {
  id : string;
  title : string;
  description : string;
  category : FoodCategory;
  quantity : string;
  expiryDate : string;
  location : string;
  postedBy : string;
  postedAt : PostedAt
}.
End FoodItem.

Module UserProfile.
Record t := mk {
  name : string;
  role : UserRole;
  description : string;
  contact : string
}.
End UserProfile.

(** The form state [newFoodItem]. *)
Module Draft.
Record t := mk {
  title : string;
  description : string;
  category : FoodCategory;
  quantity : string;
  expiryDate : string;
  location : string
}.

(** The value the form starts with and is reset to. *)
Definition initial : t := mk "" "" fruits "" "" "".

(** The [name] attributes of the inputs wired to [handleInputChange]. *)
Inductive field := Title | Description | Quantity | ExpiryDate | Location.

(** [{ ...prev, [name]: value }] *)
Definition set (f : field) (value : string) (prev : t) : t :=
  match f with
  | Title => mk value (description prev) (category prev) (quantity prev) (expiryDate prev) (location prev)
  | Description => mk (title prev) value (category prev) (quantity prev) (expiryDate prev) (location prev)
  | Quantity => mk (title prev) (description prev) (category prev) value (expiryDate prev) (location prev)
  | ExpiryDate => mk (title prev) (description prev) (category prev) (quantity prev) value (location prev)
  | Location => mk (title prev) (description prev) (category prev) (quantity prev) (expiryDate prev) value
  end.

(** Every input the form marks [required] holds some text. *)
Definition requiredFilled (d : t) : Prop :=
  title d <> "" /\ description d <> "" /\ quantity d <> "" /\
  expiryDate d <> "" /\ location d <> "".
End Draft.

(** The [useState] cells of [ZeroWasteApp]. *)
Record AppState := mkState {
  currentUser : option UserProfile.t;
  searchTerm : string;
  selectedCategory : CategoryFilter;
  activeTab : string;
  newFoodItem : Draft.t;
  foodItems : list FoodItem.t
}.

Definition setCurrentUser (u : option UserProfile.t) (st : AppState) : AppState :=
  mkState u (searchTerm st) (selectedCategory st) (activeTab st) (newFoodItem st) (foodItems st).

Definition setSearchTerm (s : string) (st : AppState) : AppState :=
  mkState (currentUser st) s (selectedCategory st) (activeTab st) (newFoodItem st) (foodItems st).

Definition setSelectedCategory (c : CategoryFilter) (st : AppState) : AppState :=
  mkState (currentUser st) (searchTerm st) c (activeTab st) (newFoodItem st) (foodItems st).

Definition setActiveTab (tab : string) (st : AppState) : AppState :=
  mkState (currentUser st) (searchTerm st) (selectedCategory st) tab (newFoodItem st) (foodItems st).

Definition setNewFoodItem (d : Draft.t) (st : AppState) : AppState :=
  mkState (currentUser st) (searchTerm st) (selectedCategory st) (activeTab st) d (foodItems st).

Definition setFoodItems (items : list FoodItem.t) (st : AppState) : AppState :=
  mkState (currentUser st) (searchTerm st) (selectedCategory st) (activeTab st) (newFoodItem st) items.

(** ** Event handlers *)

(** The profile [handleLogin] builds; [role] is all it reads. *)
Definition profileOf (role : UserRole) : UserProfile.t :=
  {| UserProfile.name :=
       match role with
       | Some donor => "Food Donor"
       | Some receiver => "Food Receiver"
       | _ => "Local NGO"
       end;
     UserProfile.role := role;
     UserProfile.description :=
       match role with
       | Some donor => "Restaurant owner donating excess food"
       | Some receiver => "Community center feeding those in need"
       | _ => "Non-profit organization redistributing food"
       end;
     UserProfile.contact := "contact@example.com" |}.

Definition handleLogin (role : UserRole) (st : AppState) : AppState :=
  setCurrentUser (Some (profileOf role)) st.

Definition handleLogout (st : AppState) : AppState :=
  setCurrentUser None st.

Definition handleInputChange (name : Draft.field) (value : string) (st : AppState) : AppState :=
  setNewFoodItem (Draft.set name value (newFoodItem st)) st.

Definition handleCategoryChange (value : FoodCategory) (st : AppState) : AppState :=
  let prev := newFoodItem st in
  setNewFoodItem
    (Draft.mk (Draft.title prev) (Draft.description prev) value
              (Draft.quantity prev) (Draft.expiryDate prev) (Draft.location prev)) st.

(** [currentUser?.name || 'Anonymous'] *)
Definition posterName (u : option UserProfile.t) : string :=
  match u with
  | Some p => JSString.or_else (UserProfile.name p) "Anonymous"
  | None => "Anonymous"
  end.

(** The object literal of [handleSubmitFoodItem]; [dateNow] is what
    [Date.now()] returned and [newDate] the time value of [new Date()]. *)
Definition newItem (dateNow : Z) (newDate : JSDate.t) (st : AppState) : FoodItem.t :=
  let d := newFoodItem st in
  {| FoodItem.id := Number_toString dateNow;
     FoodItem.title := Draft.title d;
     FoodItem.description := Draft.description d;
     FoodItem.category := Draft.category d;
     FoodItem.quantity := Draft.quantity d;
     FoodItem.expiryDate := Draft.expiryDate d;
     FoodItem.location := Draft.location d;
     FoodItem.postedBy := posterName (currentUser st);
     FoodItem.postedAt := DateObject newDate |}.

Definition handleSubmitFoodItem (dateNow : Z) (newDate : JSDate.t) (st : AppState) : AppState :=
  setActiveTab "listings"
    (setNewFoodItem Draft.initial
       (setFoodItems (foodItems st ++ [newItem dateNow newDate st]) st)).

(** ** The listing *)

Definition matchesSearch (term : string) (item : FoodItem.t) : bool :=
  JSString.includes (JSString.toLowerCase (FoodItem.title item)) (JSString.toLowerCase term) ||
  JSString.includes (JSString.toLowerCase (FoodItem.description item)) (JSString.toLowerCase term).

Definition matchesCategory (sel : CategoryFilter) (item : FoodItem.t) : bool :=
  bool_decide (sel = all) || bool_decide (only (FoodItem.category item) = sel).

(** [foodItems.filter(item => matchesSearch && matchesCategory)] *)
Definition list_items (items : list FoodItem.t) (term : string) (sel : CategoryFilter) : list FoodItem.t :=
  List.filter (fun item => matchesSearch term item && matchesCategory sel item) items.

Definition filteredItems (st : AppState) : list FoodItem.t :=
  list_items (foodItems st) (searchTerm st) (selectedCategory st).

(** ** The seed catalog *)

(** The array literal of the [foodItems] initializer; each element makes
    its own [new Date()]. *)
Definition seedCatalog (date1 date2 : JSDate.t) : list FoodItem.t :=
  [ {| FoodItem.id := "1";
       FoodItem.title := "Fresh Apples";
       FoodItem.description := "Box of organic apples, slightly bruised but perfectly good";
       FoodItem.category := fruits;
       FoodItem.quantity := "5 kg";
       FoodItem.expiryDate := "2023-12-15";
       FoodItem.location := "Downtown Market";
       FoodItem.postedBy := "Local Grocer";
       FoodItem.postedAt := DateObject date1 |};
    {| FoodItem.id := "2";
       FoodItem.title := "Day-old Bread";
       FoodItem.description := "Assorted bakery items from yesterday";
       FoodItem.category := bakery;
       FoodItem.quantity := "10 loaves";
       FoodItem.expiryDate := "2023-12-10";
       FoodItem.location := "Main Street Bakery";
       FoodItem.postedBy := "Community Kitchen";
       FoodItem.postedAt := DateObject date2 |} ].

(** ** JSON *)

Module JSON.

(** The values the catalog and the store hold.  A number is carried as the
    literal that denotes it (no field of a [FoodItem] is a number, and no
    arithmetic is done on what is read back); [VDate] is a [Date] object,
    which [parse] never produces. *)
Inductive Value :=
| VNull
| VBool (b : bool)
| VNumber (literal : string)
| VString (s : string)
| VArray (elements : list Value)
| VObject (properties : list (string * Value))
| VDate (tv : JSDate.t).

(** How a call of [JSON.parse] ends: it returns, or it throws a
    SyntaxError.  The two other outcomes are the model's own.
    [OutsideModel]: a string of the text names, by a [\u] escape, a code
    unit above U+00FF; what JavaScript does with such a text is not
    modelled.  [OutOfFuel]: the bound on the recursion was too small, which
    [parse] never reports (theorem [parse_total]). *)
Inductive Outcome (A : Type) :=
| Returns (a : A)
| ThrowsSyntaxError
| OutsideModel
| OutOfFuel.
Arguments Returns {A} a.
Arguments ThrowsSyntaxError {A}.
Arguments OutsideModel {A}.
Arguments OutOfFuel {A}.

Definition bind {A B} (m : Outcome A) (f : A -> Outcome B) : Outcome B :=
  match m with
  | Returns a => f a
  | ThrowsSyntaxError => ThrowsSyntaxError
  | OutsideModel => OutsideModel
  | OutOfFuel => OutOfFuel
  end.

Notation "'let*' p ':=' m 'in' k" := (bind m (fun p => k))
  (at level 10, p pattern, k at level 200).

Definition dquote : ascii := "034"%char.
Definition backslash : ascii := "092"%char.

(** *** JSON.stringify *)

Definition hexDigit (n : N) : ascii :=
  if (n <? 10)%N then ascii_of_N (48 + n) else ascii_of_N (87 + n).

(** QuoteJSONString, one code unit. *)
Definition quoteUnit (c : ascii) : string :=
  let n := N_of_ascii c in
  if (n =? 8)%N then String backslash "b"
  else if (n =? 9)%N then String backslash "t"
  else if (n =? 10)%N then String backslash "n"
  else if (n =? 12)%N then String backslash "f"
  else if (n =? 13)%N then String backslash "r"
  else if (n =? 34)%N then String backslash (String dquote "")
  else if (n =? 92)%N then String backslash (String backslash "")
  else if (n <? 32)%N then
    String backslash (String "u" (String "0" (String "0"
      (String (hexDigit (n / 16)) (String (hexDigit (n mod 16)) "")))))
  else String c "".

Fixpoint quoteUnits (s : string) : string :=
  match s with
  | EmptyString => EmptyString
  | String c s' => quoteUnit c +:+ quoteUnits s'
  end.

Definition quote (s : string) : string :=
  String dquote (quoteUnits s +:+ String dquote "").

(** SerializeJSONProperty: a [Date] is replaced by what its [toJSON]
    returns, an array is its elements between brackets, an object its
    properties in order between braces; no indentation is asked for. *)
Fixpoint stringify (v : Value) : string :=
  match v with
  | VNull => "null"
  | VBool true => "true"
  | VBool false => "false"
  | VNumber literal => literal
  | VString s => quote s
  | VDate tv => quote (JSDate.toISOString tv)
  | VArray elements =>
      "[" +:+ String.concat "," (List.map stringify elements) +:+ "]"
  | VObject properties =>
      "{" +:+ String.concat ","
                (List.map (fun p => quote (fst p) +:+ String ":" (stringify (snd p))) properties)
          +:+ "}"
  end.

(** *** JSON.parse *)

Definition is_ws (c : ascii) : bool :=
  let n := N_of_ascii c in
  ((n =? 32) || (n =? 9) || (n =? 10) || (n =? 13))%N.

Fixpoint skip_ws (s : string) : string :=
  match s with
  | EmptyString => EmptyString
  | String c s' => if is_ws c then skip_ws s' else s
  end.

Definition is_digit (c : ascii) : bool :=
  let n := N_of_ascii c in ((48 <=? n) && (n <=? 57))%N.

Definition hexValue (c : ascii) : option N :=
  let n := N_of_ascii c in
  if ((48 <=? n) && (n <=? 57))%N then Some (n - 48)%N
  else if ((97 <=? n) && (n <=? 102))%N then Some (n - 87)%N
  else if ((65 <=? n) && (n <=? 70))%N then Some (n - 55)%N
  else None.

Definition hex4 (a b c d : ascii) : option N :=
  match hexValue a, hexValue b, hexValue c, hexValue d with
  | Some x, Some y, Some z, Some w => Some (((x * 16 + y) * 16 + z) * 16 + w)%N
  | _, _, _, _ => None
  end.

(** The code unit a two-character escape denotes. *)
Definition escaped (e : ascii) : option ascii :=
  match e with
  | "034" => Some dquote
  | "092" => Some backslash
  | "/" => Some "/"
  | "b" => Some "008"
  | "f" => Some "012"
  | "n" => Some "010"
  | "r" => Some "013"
  | "t" => Some "009"
  | _ => None
  end%char.

Definition consUnit (c : ascii) (m : Outcome (string * string)) : Outcome (string * string) :=
  let* (str, rest) := m in Returns (String c str, rest).

(** The characters of a string literal after its opening quote, up to
    and including the closing one. *)
Fixpoint parse_chars (s : string) : Outcome (string * string) :=
  match s with
  | EmptyString => ThrowsSyntaxError
  | String c s1 =>
    if Ascii.eqb c dquote then Returns (EmptyString, s1)
    else if Ascii.eqb c backslash then
      match s1 with
      | EmptyString => ThrowsSyntaxError
      | String e s2 =>
        match escaped e with
        | Some u => consUnit u (parse_chars s2)
        | None =>
          if Ascii.eqb e "u" then
            match s2 with
            | String h1 (String h2 (String h3 (String h4 s3))) =>
              match hex4 h1 h2 h3 h4 with
              | Some n =>
                if (n <? 256)%N then consUnit (ascii_of_N n) (parse_chars s3)
                else OutsideModel
              | None => ThrowsSyntaxError
              end
            | _ => ThrowsSyntaxError
            end
          else ThrowsSyntaxError
        end
      end
    else if (N_of_ascii c <? 32)%N then ThrowsSyntaxError
    else consUnit c (parse_chars s1)
  end.

(** The longest run of digits [s] starts with, and what follows it. *)
Fixpoint digits (s : string) : string * string :=
  match s with
  | EmptyString => (EmptyString, EmptyString)
  | String c s' =>
    if is_digit c then let '(ds, rest) := digits s' in (String c ds, rest)
    else (EmptyString, s)
  end.

(** One or more digits. *)
Definition digits1 (s : string) : Outcome (string * string) :=
  match digits s with
  | (EmptyString, _) => ThrowsSyntaxError
  | (ds, rest) => Returns (ds, rest)
  end.

Definition parse_int (s : string) : Outcome (string * string) :=
  match s with
  | String "0" rest => Returns ("0", rest)
  | _ => digits1 s
  end.

Definition parse_frac (s : string) : Outcome (string * string) :=
  match s with
  | String "." s1 => let* (ds, rest) := digits1 s1 in Returns (String "." ds, rest)
  | _ => Returns (EmptyString, s)
  end.

Definition parse_exp (s : string) : Outcome (string * string) :=
  match s with
  | String c s1 =>
    if Ascii.eqb c "e" || Ascii.eqb c "E" then
      match s1 with
      | String sg s2 =>
        if Ascii.eqb sg "+" || Ascii.eqb sg "-" then
          let* (ds, rest) := digits1 s2 in Returns (String c (String sg ds), rest)
        else
          let* (ds, rest) := digits1 s1 in Returns (String c ds, rest)
      | EmptyString => ThrowsSyntaxError
      end
    else Returns (EmptyString, s)
  | EmptyString => Returns (EmptyString, s)
  end.

(** A number literal: [-]? int frac? exp? *)
Definition parse_number (s : string) : Outcome (string * string) :=
  let '(sign, s0) :=
    match s with
    | String "-" s' => ("-", s')
    | _ => (EmptyString, s)
    end in
  let* (i, s1) := parse_int s0 in
  let* (f, s2) := parse_frac s1 in
  let* (e, s3) := parse_exp s2 in
  Returns (sign +:+ i +:+ f +:+ e, s3).

(** What follows the word [w] at the start of [s]. *)
Fixpoint strip (w s : string) : option string :=
  match w with
  | EmptyString => Some s
  | String a w' =>
    match s with
    | EmptyString => None
    | String b s' => if Ascii.eqb a b then strip w' s' else None
    end
  end.

Definition keyword (w : string) (v : Value) (s : string) : Outcome (Value * string) :=
  match strip w s with
  | Some rest => Returns (v, rest)
  | None => ThrowsSyntaxError
  end.

(** What follows the character [c] at the start of [s]. *)
Definition startsWith (c : ascii) (s : string) : option string :=
  match s with
  | EmptyString => None
  | String a rest => if Ascii.eqb a c then Some rest else None
  end.

Fixpoint parse_value (fuel : nat) (s : string) {struct fuel} : Outcome (Value * string) :=
  match fuel with
  | O => OutOfFuel
  | S fuel' =>
    match skip_ws s with
    | EmptyString => ThrowsSyntaxError
    | String c r =>
      if Ascii.eqb c "[" then
        match startsWith "]" (skip_ws r) with
        | Some r' => Returns (VArray [], r')
        | None => let* (vs, r') := parse_elements fuel' r in Returns (VArray vs, r')
        end
      else if Ascii.eqb c "{" then
        match startsWith "}" (skip_ws r) with
        | Some r' => Returns (VObject [], r')
        | None => let* (ps, r') := parse_members fuel' r in Returns (VObject ps, r')
        end
      else if Ascii.eqb c dquote then
        let* (str, r') := parse_chars r in Returns (VString str, r')
      else if Ascii.eqb c "n" then keyword "ull" VNull r
      else if Ascii.eqb c "t" then keyword "rue" (VBool true) r
      else if Ascii.eqb c "f" then keyword "alse" (VBool false) r
      else if Ascii.eqb c "-" || is_digit c then
        let* (literal, r') := parse_number (String c r) in Returns (VNumber literal, r')
      else ThrowsSyntaxError
    end
  end

(** One or more values separated by commas, then the closing bracket. *)
with parse_elements (fuel : nat) (s : string) {struct fuel} : Outcome (list Value * string) :=
  match fuel with
  | O => OutOfFuel
  | S fuel' =>
    let* (v, r) := parse_value fuel' s in
    match skip_ws r with
    | EmptyString => ThrowsSyntaxError
    | String c r' =>
      if Ascii.eqb c "," then
        let* (vs, r'') := parse_elements fuel' r' in Returns (v :: vs, r'')
      else if Ascii.eqb c "]" then Returns ([v], r')
      else ThrowsSyntaxError
    end
  end

(** One or more [key : value] pairs separated by commas, then the
    closing brace. *)
with parse_members (fuel : nat) (s : string) {struct fuel}
    : Outcome (list (string * Value) * string) :=
  match fuel with
  | O => OutOfFuel
  | S fuel' =>
    match startsWith dquote (skip_ws s) with
    | None => ThrowsSyntaxError
    | Some r =>
      let* (key, r1) := parse_chars r in
      match startsWith ":" (skip_ws r1) with
      | None => ThrowsSyntaxError
      | Some r2 =>
        let* (v, r3) := parse_value fuel' r2 in
        match skip_ws r3 with
        | EmptyString => ThrowsSyntaxError
        | String c r4 =>
          if Ascii.eqb c "," then
            let* (ps, r5) := parse_members fuel' r4 in Returns ((key, v) :: ps, r5)
          else if Ascii.eqb c "}" then Returns ([(key, v)], r4)
          else ThrowsSyntaxError
        end
      end
    end
  end.

(** A text of [n] characters is parsed within [2 * n + 1] nested calls. *)
Definition fuel_for (text : string) : nat := S (2 * String.length text).

(** [JSON.parse(text)]: one value, with nothing but white space around it. *)
Definition parse (text : string) : Outcome Value :=
  let* (v, rest) := parse_value (fuel_for text) text in
  match skip_ws rest with
  | EmptyString => Returns v
  | String _ _ => ThrowsSyntaxError
  end.

(** What is read back for a value written by [stringify]: the same value
    with every [Date] replaced by its ISO string. *)
Fixpoint plain (v : Value) : Value :=
  match v with
  | VDate tv => VString (JSDate.toISOString tv)
  | VArray elements => VArray (List.map plain elements)
  | VObject properties => VObject (List.map (fun p => (fst p, plain (snd p))) properties)
  | _ => v
  end.

(** The number of nodes of [v], with one more for each element or
    property: a bound on the nesting of calls that parses it back. *)
Fixpoint size (v : Value) : nat :=
  match v with
  | VArray elements => S (list_sum (List.map (fun x => S (size x)) elements))
  | VObject properties => S (list_sum (List.map (fun p => S (size (snd p))) properties))
  | _ => 1
  end.

(** No number occurs in [v]. *)
Fixpoint numberless (v : Value) : bool :=
  match v with
  | VNumber _ => false
  | VArray elements => forallb numberless elements
  | VObject properties => forallb (fun p => numberless (snd p)) properties
  | _ => true
  end.

(** The text of the elements of an array, and of the properties of an
    object, without the brackets. *)
Definition elementsText (vs : list Value) : string :=
  String.concat "," (List.map stringify vs).

Definition memberText (p : string * Value) : string :=
  quote (fst p) +:+ String ":" (stringify (snd p)).

Definition membersText (ps : list (string * Value)) : string :=
  String.concat "," (List.map memberText ps).

Definition weight (vs : list Value) : nat :=
  list_sum (List.map (fun x => S (size x)) vs).

Definition weightP (ps : list (string * Value)) : nat :=
  list_sum (List.map (fun p => S (size (snd p))) ps).

End JSON.


(** ** Persistence *)

(** [localStorage]: string keys, string values. *)
Abbreviation Storage := (gmap string string).

(** [localStorage.getItem(key)]; [None] is JavaScript's [null]. *)
Definition getItem (key : string) (ls : Storage) : option string := ls !! key.

(** [localStorage.setItem(key, value)] when the browser takes the value;
    [trySetItem] is the call under a quota. *)
Definition setItem (key value : string) (ls : Storage) : Storage := <[key := value]> ls.

Definition categoryName (c : FoodCategory) : string :=
  match c with
  | fruits => "fruits"
  | vegetables => "vegetables"
  | dairy => "dairy"
  | bakery => "bakery"
  | meals => "meals"
  | other => "other"
  end.

Definition postedAtValue (p : PostedAt) : JSON.Value :=
  match p with
  | DateObject tv => JSON.VDate tv
  | DateString s => JSON.VString s
  end.

(** A [FoodItem] as the object it is at run time; the properties are in
    the order the object literals of the source create them. *)
Definition itemValue (item : FoodItem.t) : JSON.Value :=
  JSON.VObject
    [ ("id", JSON.VString (FoodItem.id item));
      ("title", JSON.VString (FoodItem.title item));
      ("description", JSON.VString (FoodItem.description item));
      ("category", JSON.VString (categoryName (FoodItem.category item)));
      ("quantity", JSON.VString (FoodItem.quantity item));
      ("expiryDate", JSON.VString (FoodItem.expiryDate item));
      ("location", JSON.VString (FoodItem.location item));
      ("postedBy", JSON.VString (FoodItem.postedBy item));
      ("postedAt", postedAtValue (FoodItem.postedAt item)) ].

Definition catalogValue (items : list FoodItem.t) : JSON.Value :=
  JSON.VArray (List.map itemValue items).

(** The effect that follows every change of [foodItems]:
    [localStorage.setItem('foodItems', JSON.stringify(foodItems))]. *)
Definition persist (items : list FoodItem.t) (ls : Storage) : Storage :=
  setItem "foodItems" (JSON.stringify (catalogValue items)) ls.

(** The lazy initializer of the [foodItems] cell.  [hasWindow] is
    [typeof window !== 'undefined']; [date1] and [date2] are the two
    [new Date()] of the seed.  Nothing catches what [JSON.parse] throws. *)
Definition initFoodItems (hasWindow : bool) (ls : Storage) (date1 date2 : JSDate.t)
    : JSON.Outcome JSON.Value :=
  if hasWindow then
    match getItem "foodItems" ls with
    | Some savedItems =>
        if JSString.truthy savedItems then JSON.parse savedItems
        else JSON.Returns (catalogValue (seedCatalog date1 date2))
    | None => JSON.Returns (catalogValue (seedCatalog date1 date2))
    end
  else JSON.Returns (JSON.VArray []).

(** *** Reading a run-time value at the type [FoodItem[]] *)

(** [o.key] on an object built by [JSON.parse] or by an object literal: of
    several properties with one key the last one written stays. *)
Fixpoint getProperty (key : string) (properties : list (string * JSON.Value))
    : option JSON.Value :=
  match properties with
  | [] => None
  | (k, v) :: rest =>
    match getProperty key rest with
    | Some v' => Some v'
    | None => if String.eqb k key then Some v else None
    end
  end.

Definition asString (v : JSON.Value) : option string :=
  match v with JSON.VString s => Some s | _ => None end.

Definition asCategory (v : JSON.Value) : option FoodCategory :=
  match v with
  | JSON.VString s =>
    List.find (fun c => String.eqb (categoryName c) s)
              [fruits; vegetables; dairy; bakery; meals; other]
  | _ => None
  end.

Definition asPostedAt (v : JSON.Value) : option PostedAt :=
  match v with
  | JSON.VDate tv => Some (DateObject tv)
  | JSON.VString s => Some (DateString s)
  | _ => None
  end.

Definition asFoodItem (v : JSON.Value) : option FoodItem.t :=
  match v with
  | JSON.VObject ps =>
    id ← getProperty "id" ps ≫= asString;
    title ← getProperty "title" ps ≫= asString;
    description ← getProperty "description" ps ≫= asString;
    category ← getProperty "category" ps ≫= asCategory;
    quantity ← getProperty "quantity" ps ≫= asString;
    expiryDate ← getProperty "expiryDate" ps ≫= asString;
    location ← getProperty "location" ps ≫= asString;
    postedBy ← getProperty "postedBy" ps ≫= asString;
    postedAt ← getProperty "postedAt" ps ≫= asPostedAt;
    Some (FoodItem.mk id title description category quantity expiryDate
                      location postedBy postedAt)
  | _ => None
  end.

Definition asCatalog (v : JSON.Value) : option (list FoodItem.t) :=
  match v with
  | JSON.VArray vs => mapM asFoodItem vs
  | _ => None
  end.

(** An item as it is after a restart: [postedAt] is the string its date
    was written as. *)
Definition storedPostedAt (p : PostedAt) : PostedAt :=
  match p with
  | DateObject tv => DateString (JSDate.toISOString tv)
  | DateString s => DateString s
  end.

Definition storedItem (item : FoodItem.t) : FoodItem.t :=
  FoodItem.mk (FoodItem.id item) (FoodItem.title item) (FoodItem.description item)
              (FoodItem.category item) (FoodItem.quantity item) (FoodItem.expiryDate item)
              (FoodItem.location item) (FoodItem.postedBy item)
              (storedPostedAt (FoodItem.postedAt item)).

(** ** The component as a transition system *)

(** The state of the first render, for a catalog the initializer returned. *)
Definition initialState (items : list FoodItem.t) : AppState :=
  {| currentUser := None;
     searchTerm := "";
     selectedCategory := all;
     activeTab := "listings";
     newFoodItem := Draft.initial;
     foodItems := items |}.

(** What the user can do, with the clock readings a submission takes. *)
Inductive Event :=
| Login (role : UserRole)
| Logout
| InputChange (name : Draft.field) (value : string)
| CategoryChange (value : FoodCategory)
| Submit (dateNow : Z) (newDate : JSDate.t)
| SetSearchTerm (term : string)
| SetSelectedCategory (sel : CategoryFilter)
| SetActiveTab (tab : string).

Definition handle (e : Event) (st : AppState) : AppState :=
  match e with
  | Login role => handleLogin role st
  | Logout => handleLogout st
  | InputChange name value => handleInputChange name value st
  | CategoryChange value => handleCategoryChange value st
  | Submit dateNow newDate => handleSubmitFoodItem dateNow newDate st
  | SetSearchTerm term => setSearchTerm term st
  | SetSelectedCategory sel => setSelectedCategory sel st
  | SetActiveTab tab => setActiveTab tab st
  end.

(** The state after a sequence of events, oldest first. *)
Definition run (events : list Event) (st : AppState) : AppState :=
  fold_left (fun s e => handle e s) events st.

(** The states the component can be in when it started from the catalog
    [items0]. *)
Inductive reachable (items0 : list FoodItem.t) : AppState -> Prop :=
| reachable_initial : reachable items0 (initialState items0)
| reachable_handle e st : reachable items0 st -> reachable items0 (handle e st).

(** No two items of the catalog have the same [id]. *)
Definition uniqueIds (items : list FoodItem.t) : Prop :=
  NoDup (List.map FoodItem.id items).

(** ** The listing, as the specification words it *)

(** The capital letters among the code units U+0000 .. U+00FF: A to Z, and
    U+00C0 to U+00DE but for the multiplication sign U+00D7. *)
Definition isCapital (c : ascii) : bool :=
  let n := N_of_ascii c in
  ((65 <=? n) && (n <=? 90) || (192 <=? n) && (n <=? 222) && negb (n =? 215))%N.

(** Two units are one letter: they are equal, or one is a capital and the
    other its small letter, 32 places further. *)
Definition sameLetter (a b : ascii) : bool :=
  Ascii.eqb a b ||
  isCapital a && (N_of_ascii b =? N_of_ascii a + 32)%N ||
  isCapital b && (N_of_ascii a =? N_of_ascii b + 32)%N.

(** [s] spells [t] up to letter case: as long, and unit by unit one
    letter. *)
Fixpoint spells (s t : string) : bool :=
  match s, t with
  | EmptyString, EmptyString => true
  | String a s', String b t' => sameLetter a b && spells s' t'
  | _, _ => false
  end.

(** [t] occurs in [s], letter case apart: some stretch of [s] spells [t]
    up to letter case. *)
Definition occursLetterCaseApart (t s : string) : Prop :=
  exists before mid after : string, s = before +:+ mid +:+ after /\ spells mid t = true.

Definition categoryConstraint (sel : CategoryFilter) (item : FoodItem.t) : Prop :=
  sel = all \/ sel = only (FoodItem.category item).

Definition searchConstraint (term : string) (item : FoodItem.t) : Prop :=
  occursLetterCaseApart term (FoodItem.title item) \/
  occursLetterCaseApart term (FoodItem.description item).

(** The code units U+0000 .. U+00FF. *)
Definition allUnits : list ascii := List.map ascii_of_nat (seq 0 256).

(** [kept] is the sublist of [l] made of exactly the elements for which
    [P] holds, in the order of [l]. *)
Inductive Selects {A : Type} (P : A -> Prop) : list A -> list A -> Prop :=
| Selects_nil : Selects P [] []
| Selects_keep x l kept : P x -> Selects P l kept -> Selects P (x :: l) (x :: kept)
| Selects_drop x l kept : ~ P x -> Selects P l kept -> Selects P (x :: l) kept.

(** The profiles a session can hold: none, or the canned one of a role. *)
Definition cannedUser (u : option UserProfile.t) : Prop :=
  u = None \/ exists role, u = Some (profileOf role).

(** ** Scenarios *)

(** A donor who has logged in and filled the form. *)
Definition donorWithSoup : AppState :=
  run [ Login (Some donor);
        SetActiveTab "post";
        InputChange Draft.Title "Soup";
        InputChange Draft.Description "Two litres of lentil soup";
        CategoryChange meals;
        InputChange Draft.Quantity "2 l";
        InputChange Draft.ExpiryDate "2023-12-20";
        InputChange Draft.Location "Church Hall" ]
      (initialState (seedCatalog 1700000000000 1700000000000)).

(** A donor posting twice, both submissions reading the same millisecond
    from the clock. *)
Definition twoPostsOneReading : list Event :=
  [ Login (Some donor);
    InputChange Draft.Title "Soup"; InputChange Draft.Description "Lentil soup";
    InputChange Draft.Quantity "2 l"; InputChange Draft.ExpiryDate "2023-12-20";
    InputChange Draft.Location "Church Hall";
    Submit 1700000123456 1700000123456;
    InputChange Draft.Title "Rice"; InputChange Draft.Description "Boiled rice";
    InputChange Draft.Quantity "1 kg"; InputChange Draft.ExpiryDate "2023-12-20";
    InputChange Draft.Location "Church Hall";
    Submit 1700000123456 1700000123456 ].

(** A text with an apostrophe for every double quote of the text meant. *)
Fixpoint sq (s : string) : string :=
  match s with
  | EmptyString => EmptyString
  | String c s' => String (if Ascii.eqb c "'" then JSON.dquote else c) (sq s')
  end.

(** The store holding nothing but a text under the key of the catalog. *)
Definition storeHolding (text : string) : Storage := {[ "foodItems" := text ]}.

(** ** The effect and the store during a session *)

(** [useEffect(..., [foodItems])] runs after the first render and after
    every render for which [foodItems] is another array than before; of the
    handlers only [handleSubmitFoodItem] calls [setFoodItems]. *)
Definition writesCatalog (e : Event) : bool :=
  match e with Submit _ _ => true | _ => false end.

(** The first render of a catalog, and the effect after it. *)
Definition mount (items : list FoodItem.t) (ls : Storage) : AppState * Storage :=
  (initialState items, persist items ls).

(** ** Reading a run of events *)

(** What [Date.now()] returned at the submissions of a run, oldest first. *)
Fixpoint readings (events : list Event) : list Z :=
  match events with
  | [] => []
  | Submit dateNow _ :: rest => dateNow :: readings rest
  | _ :: rest => readings rest
  end.

#[global] Instance Draft_field_eq_dec : EqDecision Draft.field.
Proof. solve_decision. Defined.

(** The text of a free-text field of the draft. *)
Definition draftField (f : Draft.field) (d : Draft.t) : string :=
  match f with
  | Draft.Title => Draft.title d
  | Draft.Description => Draft.description d
  | Draft.Quantity => Draft.quantity d
  | Draft.ExpiryDate => Draft.expiryDate d
  | Draft.Location => Draft.location d
  end.

(** What the field [f] should hold after [events] when it held [current]
    before: the text last typed into it since the last submission, and the
    empty text when a submission came last. *)
Fixpoint lastTyped (f : Draft.field) (events : list Event) (current : string) : string :=
  match events with
  | [] => current
  | InputChange g value :: rest =>
      lastTyped f rest (if decide (g = f) then value else current)
  | Submit _ _ :: rest => lastTyped f rest ""
  | _ :: rest => lastTyped f rest current
  end.

(** The same for the category of the draft, which a submission puts back
    to fruits. *)
Fixpoint lastChosen (events : list Event) (current : FoodCategory) : FoodCategory :=
  match events with
  | [] => current
  | CategoryChange value :: rest => lastChosen rest value
  | Submit _ _ :: rest => lastChosen rest fruits
  | _ :: rest => lastChosen rest current
  end.

(** ** The view *)

(** The array the category pills are made from. *)
Definition categoryPills : list FoodCategory :=
  [fruits; vegetables; dairy; bakery; meals; other].

(** [getCategoryIcon]: each result is one character outside the Basic
    Multilingual Plane, given here as the two UTF-16 code units of the
    string. *)
Definition getCategoryIcon (category : FoodCategory) : list N :=
  match category with
  | fruits => [0xD83C; 0xDF4E]
  | vegetables => [0xD83E; 0xDD66]
  | dairy => [0xD83E; 0xDD5B]
  | bakery => [0xD83E; 0xDD56]
  | meals => [0xD83C; 0xDF72]
  | other => [0xD83D; 0xDCE6]
  end%N.

(** What the rendered page offers to click, type into or choose from. *)
Inductive Control :=
| LoginButton (role : Role)
| LogoutButton
| TabButton (tab : string)
| SearchBox
| CategoryPill (sel : CategoryFilter)
| ClaimButton (itemId : string)
| FormField (name : Draft.field)
| CategorySelect
| SubmitButton.

#[global] Instance Control_eq_dec : EqDecision Control.
Proof. solve_decision. Defined.

(** The tab strip, which is rendered twice: under the welcome bar and as
    the bottom navigation.  The post tab is left out for a receiver. *)
Definition tabStrip (user : UserProfile.t) : list Control :=
  [TabButton "listings"] ++
  (if decide (UserProfile.role user = Some receiver) then [] else [TabButton "post"]) ++
  [TabButton "profile"].

Definition listingsArea (st : AppState) : list Control :=
  [SearchBox; CategoryPill all] ++ List.map (fun c => CategoryPill (only c)) categoryPills ++
  List.map (fun item => ClaimButton (FoodItem.id item)) (filteredItems st).

Definition postArea : list Control :=
  [ FormField Draft.Title; FormField Draft.Description; CategorySelect;
    FormField Draft.Quantity; FormField Draft.ExpiryDate; FormField Draft.Location;
    SubmitButton ].

(** The controls of the page, in document order.  The three content areas
    are guarded by [activeTab] alone; the profile area has no control. *)
Definition render (st : AppState) : list Control :=
  match currentUser st with
  | Some user =>
      [LogoutButton] ++ tabStrip user ++
      (if String.eqb (activeTab st) "listings" then listingsArea st else []) ++
      (if String.eqb (activeTab st) "post" then postArea else []) ++
      tabStrip user
  | None => [LoginButton donor; LoginButton receiver; LoginButton ngo]
  end.

(** The inputs marked [required] all hold some text: what the browser
    checks before it lets the form raise its submit event. *)
Definition requiredFilledb (d : Draft.t) : bool :=
  JSString.truthy (Draft.title d) && JSString.truthy (Draft.description d) &&
  JSString.truthy (Draft.quantity d) && JSString.truthy (Draft.expiryDate d) &&
  JSString.truthy (Draft.location d).

(** What a user does to the page. *)
Inductive Action :=
| ClickLogin (role : Role)
| ClickLogout
| ClickTab (tab : string)
| TypeSearch (term : string)
| ClickPill (sel : CategoryFilter)
| ClickClaim (itemId : string)
| TypeField (name : Draft.field) (value : string)
| ChooseCategory (value : FoodCategory)
| PressSubmit (dateNow : Z) (newDate : JSDate.t).

(** The control an action is done to. *)
Definition control (a : Action) : Control :=
  match a with
  | ClickLogin role => LoginButton role
  | ClickLogout => LogoutButton
  | ClickTab tab => TabButton tab
  | TypeSearch _ => SearchBox
  | ClickPill sel => CategoryPill sel
  | ClickClaim itemId => ClaimButton itemId
  | TypeField name _ => FormField name
  | ChooseCategory _ => CategorySelect
  | PressSubmit _ _ => SubmitButton
  end.

(** The handler wired to the control.  The claim button has none; the
    form raises its submit event only when the required inputs are filled. *)
Definition perform (a : Action) (st : AppState) : AppState :=
  match a with
  | ClickLogin role => handleLogin (Some role) st
  | ClickLogout => handleLogout st
  | ClickTab tab => setActiveTab tab st
  | TypeSearch term => setSearchTerm term st
  | ClickPill sel => setSelectedCategory sel st
  | ClickClaim _ => st
  | TypeField name value => handleInputChange name value st
  | ChooseCategory value => handleCategoryChange value st
  | PressSubmit dateNow newDate =>
      if requiredFilledb (newFoodItem st) then handleSubmitFoodItem dateNow newDate st else st
  end.

(** An action can be done when its control is on the page. *)
Definition act (a : Action) (st : AppState) : option AppState :=
  if decide (control a ∈ render st) then Some (perform a st) else None.

(** The states a user can bring the page to, starting from the catalog
    [items0]. *)
Inductive uiReachable (items0 : list FoodItem.t) : AppState -> Prop :=
| uiReachable_initial : uiReachable items0 (initialState items0)
| uiReachable_act a st st' :
    uiReachable items0 st -> act a st = Some st' -> uiReachable items0 st'.

(** The names of the canned profiles. *)
Definition cannedNames : list string := ["Food Donor"; "Food Receiver"; "Local NGO"].

(** An item as the form makes it: posted under a canned name, with text
    in every required field, stamped by the clock. *)
Definition postedThroughForm (item : FoodItem.t) : Prop :=
  FoodItem.postedBy item ∈ cannedNames /\
  FoodItem.title item <> "" /\ FoodItem.description item <> "" /\
  FoodItem.quantity item <> "" /\ FoodItem.expiryDate item <> "" /\
  FoodItem.location item <> "" /\
  exists dateNow newDate,
    FoodItem.id item = Number_toString dateNow /\ FoodItem.postedAt item = DateObject newDate.

(** The handlers of a list of actions, one after the other. *)
Definition performAll (actions : list Action) (st : AppState) : AppState :=
  fold_left (fun s a => perform a s) actions st.

(** What holds of every state the page can be brought to. *)
Definition pageInvariant (items0 : list FoodItem.t) (st : AppState) : Prop :=
  activeTab st ∈ ["listings"; "post"; "profile"] /\
  (currentUser st = None \/ exists role : Role, currentUser st = Some (profileOf (Some role))) /\
  exists added, foodItems st = items0 ++ added /\ Forall postedThroughForm added.

(** A donor logs in, opens the post tab and logs out; a receiver logs in. *)
Definition receiverAfterDonor : list Action :=
  [ClickLogin donor; ClickTab "post"; ClickLogout; ClickLogin receiver].

(** A donor logs in, opens the post tab, fills the form and submits it. *)
Definition donorPostsSoup : list Action :=
  [ ClickLogin donor; ClickTab "post";
    TypeField Draft.Title "Soup"; TypeField Draft.Description "Two litres of lentil soup";
    ChooseCategory meals; TypeField Draft.Quantity "2 l";
    TypeField Draft.ExpiryDate "2023-12-20"; TypeField Draft.Location "Church Hall";
    PressSubmit 1700000123456 1700000123457 ].

(** The state after a list of actions, when each could be done. *)
Fixpoint actAll (actions : list Action) (st : AppState) : option AppState :=
  match actions with
  | [] => Some st
  | a :: rest => match act a st with Some st' => actAll rest st' | None => None end
  end.

(** ** The listing over UTF-16 strings *)

(** The listing again, with strings as JavaScript has them: sequences of
    UTF-16 code units of any value.  [String.prototype.toLowerCase] is a
    parameter [lower] of the filter, so that what is proved of it holds
    whatever the lowering of the engine does.  [Wide.toLowerCase] is that
    lowering computed from the tables of Unicode for a repertoire of code
    units, and undefined outside of it; the repertoire has the Greek
    capital sigma, whose lower case depends on where it stands in a
    word. *)
Module Wide.

Definition ustring := list N.

(** [s.startsWith(searchString)] *)
Fixpoint startsWith (s searchString : ustring) {struct searchString} : bool :=
  match searchString with
  | [] => true
  | c :: rest =>
    match s with
    | [] => false
    | d :: s' => (c =? d)%N && startsWith s' rest
    end
  end.

(** [s.includes(searchString)] *)
Fixpoint includes (s searchString : ustring) : bool :=
  startsWith s searchString ||
  match s with
  | [] => false
  | _ :: s' => includes s' searchString
  end.

Inductive PostedAt :=
| DateObject (tv : JSDate.t)
| DateString (s : ustring).

Record FoodItem := mk {
  id : ustring;
  title : ustring;
  description : ustring;
  category : FoodCategory;
  quantity : ustring;
  expiryDate : ustring;
  location : ustring;
  postedBy : ustring;
  postedAt : PostedAt
}.

Definition matchesSearch (lower : ustring -> ustring) (term : ustring) (item : FoodItem) : bool :=
  includes (lower (title item)) (lower term) ||
  includes (lower (description item)) (lower term).

Definition matchesCategory (sel : CategoryFilter) (item : FoodItem) : bool :=
  bool_decide (sel = all) || bool_decide (only (category item) = sel).

(** [foodItems.filter(item => matchesSearch && matchesCategory)] *)
Definition list_items (lower : ustring -> ustring)
    (items : list FoodItem) (term : ustring) (sel : CategoryFilter) : list FoodItem :=
  List.filter (fun item => matchesSearch lower term item && matchesCategory sel item) items.

(** *** The constraints *)

(** [t] is a stretch of [s]. *)
Definition occursIn (t s : ustring) : Prop := exists before after, s = before ++ t ++ after.

Definition categoryConstraint (sel : CategoryFilter) (item : FoodItem) : Prop :=
  sel = all \/ sel = only (category item).

(** The lower-case form of the term is a stretch of the lower-case form of
    the title or of the description. *)
Definition searchConstraint (lower : ustring -> ustring) (term : ustring) (item : FoodItem) : Prop :=
  occursIn (lower term) (lower (title item)) \/ occursIn (lower term) (lower (description item)).

(** *** Lower case from the tables *)

(** The default case conversion of Unicode, which [toLowerCase] is: the
    lower-case mappings of UnicodeData.txt, the condition Final_Sigma of
    SpecialCasing.txt, and the properties Cased and Case_Ignorable of
    DerivedCoreProperties.txt, each cut down to the repertoire. *)

(** The repertoire: U+0000 .. U+00FF, the Greek capitals U+0391 .. U+03A9
    and the Greek small letters U+03B1 .. U+03C9. *)
Definition inRepertoire (c : N) : bool :=
  ((c <=? 0xFF) || (0x391 <=? c) && (c <=? 0x3A9) || (0x3B1 <=? c) && (c <=? 0x3C9))%N.

(** The units of the repertoire with the property Cased. *)
Definition isCased (c : N) : bool :=
  ((65 <=? c) && (c <=? 90) || (97 <=? c) && (c <=? 122) ||
   (c =? 0xAA) || (c =? 0xB5) || (c =? 0xBA) ||
   (0xC0 <=? c) && (c <=? 0xD6) || (0xD8 <=? c) && (c <=? 0xF6) ||
   (0xF8 <=? c) && (c <=? 0xFF) ||
   (0x391 <=? c) && (c <=? 0x3A1) || (0x3A3 <=? c) && (c <=? 0x3A9) ||
   (0x3B1 <=? c) && (c <=? 0x3C9))%N.

(** The units of the repertoire with the property Case_Ignorable. *)
Definition isCaseIgnorable (c : N) : bool :=
  ((c =? 0x27) || (c =? 0x2E) || (c =? 0x3A) || (c =? 0x5E) || (c =? 0x60) ||
   (c =? 0xA8) || (c =? 0xAD) || (c =? 0xAF) || (c =? 0xB4) || (c =? 0xB7) ||
   (c =? 0xB8))%N.

(** Going away from a sigma: case-ignorable units, then a cased one. *)
Fixpoint reachesCased (units : ustring) : bool :=
  match units with
  | [] => false
  | c :: rest => if isCaseIgnorable c then reachesCased rest else isCased c
  end.

(** Final_Sigma of SpecialCasing: a cased letter before the sigma and none
    after it, case-ignorable units apart.  [before] is what precedes the
    sigma, nearest unit first. *)
Definition finalSigma (before after : ustring) : bool :=
  reachesCased before && negb (reachesCased after).

(** The lower case of the unit [c] between [before] and [after]. *)
Definition lowerAt (before : ustring) (c : N) (after : ustring) : N :=
  if (c =? 0x3A3)%N then (if finalSigma before after then 0x3C2 else 0x3C3)%N
  else if ((0x391 <=? c) && (c <=? 0x3A9) && negb (c =? 0x3A2))%N then (c + 32)%N
  else if ((65 <=? c) && (c <=? 90) || (0xC0 <=? c) && (c <=? 0xDE) && negb (c =? 0xD7))%N
       then (c + 32)%N
  else c.

Fixpoint lowerFrom (before s : ustring) : ustring :=
  match s with
  | [] => []
  | c :: rest => lowerAt before c rest :: lowerFrom (c :: before) rest
  end.

(** [s.toLowerCase()] for [s] in the repertoire; [None] outside of it. *)
Definition toLowerCase (s : ustring) : option ustring :=
  if forallb inRepertoire s then Some (lowerFrom [] s) else None.

(** [lower] is as the tables say wherever they say something. *)
Definition agreesWithTables (lower : ustring -> ustring) : Prop :=
  forall s t, toLowerCase s = Some t -> lower s = t.

(** The filter with the lowering of the tables: [None] when it lowers a
    text outside the repertoire.  The description is lowered only when the
    title does not have the term, as [||] has it. *)
Definition matchesSearchByTables (term : ustring) (item : FoodItem) : option bool :=
  t ← toLowerCase (title item);
  s ← toLowerCase term;
  if includes t s then Some true
  else d ← toLowerCase (description item); Some (includes d s).

Fixpoint list_itemsByTables
    (items : list FoodItem) (term : ustring) (sel : CategoryFilter) : option (list FoodItem) :=
  match items with
  | [] => Some []
  | item :: rest =>
    found ← matchesSearchByTables term item;
    kept ← list_itemsByTables rest term sel;
    Some (if found && matchesCategory sel item then item :: kept else kept)
  end.

(** *** Texts of the range U+0000 .. U+00FF *)

Fixpoint ofString (s : string) : ustring :=
  match s with
  | EmptyString => []
  | String c s' => N_of_ascii c :: ofString s'
  end.

End Wide.

Definition widePostedAt (p : PostedAt) : Wide.PostedAt :=
  match p with
  | DateObject tv => Wide.DateObject tv
  | DateString s => Wide.DateString (Wide.ofString s)
  end.

Definition wideItem (item : FoodItem.t) : Wide.FoodItem :=
  Wide.mk (Wide.ofString (FoodItem.id item))
          (Wide.ofString (FoodItem.title item))
          (Wide.ofString (FoodItem.description item))
          (FoodItem.category item)
          (Wide.ofString (FoodItem.quantity item))
          (Wide.ofString (FoodItem.expiryDate item))
          (Wide.ofString (FoodItem.location item))
          (Wide.ofString (FoodItem.postedBy item))
          (widePostedAt (FoodItem.postedAt item)).

(** Two Greek words in capitals, pi alpha sigma and pi alpha sigma tau
    alpha, and an item with the longer one for its title. *)
Definition capitalPAS : Wide.ustring := [0x3A0; 0x391; 0x3A3]%N.
Definition capitalPASTA : Wide.ustring := [0x3A0; 0x391; 0x3A3; 0x3A4; 0x391]%N.

Definition pastaItem : Wide.FoodItem :=
  Wide.mk (Wide.ofString "3") capitalPASTA (Wide.ofString "Fresh pasta") meals
          (Wide.ofString "1 kg") (Wide.ofString "2023-12-20") (Wide.ofString "Taverna")
          (Wide.ofString "Food Donor") (Wide.DateObject 1700000000000).

(** ** The store with a quota *)

(** What the browser decides when asked to store [value] under [key]: to
    take it, or to refuse it for lack of room. *)
Definition QuotaPolicy := string -> string -> Storage -> bool.

(** [localStorage.setItem(key, value)] under a quota: the store with the
    value written, or [None] when the call throws QuotaExceededError, which
    leaves the store as it was. *)
Definition trySetItem (accepts : QuotaPolicy) (key value : string) (ls : Storage)
    : option Storage :=
  if accepts key value ls then Some (setItem key value ls) else None.

(** The component is on the page with its state, or it is gone: nothing in
    the source catches what the effect throws, there is no error boundary
    around [App], and React unmounts a tree whose effect threw. *)
Inductive Page :=
| Running (st : AppState) (ls : Storage)
| Unmounted (ls : Storage).

(** The effect, after a render with the catalog [foodItems st]. *)
Definition runEffect (accepts : QuotaPolicy) (st : AppState) (ls : Storage) : Page :=
  match trySetItem accepts "foodItems" (JSON.stringify (catalogValue (foodItems st))) ls with
  | Some ls' => Running st ls'
  | None => Unmounted ls
  end.

(** The first render of a catalog, and the effect after it. *)
Definition mountPage (accepts : QuotaPolicy) (items : list FoodItem.t) (ls : Storage) : Page :=
  runEffect accepts (initialState items) ls.

(** An event, the render it causes, and the effect after that render; no
    event reaches a component that is gone. *)
Definition dispatchPage (accepts : QuotaPolicy) (e : Event) (page : Page) : Page :=
  match page with
  | Running st ls =>
      if writesCatalog e then runEffect accepts (handle e st) ls
      else Running (handle e st) ls
  | Unmounted ls => Unmounted ls
  end.

Definition sessionPage (accepts : QuotaPolicy) (events : list Event) (page : Page) : Page :=
  fold_left (fun page e => dispatchPage accepts e page) events page.

(** A browser with room for [room] code units under one key, the key
    counted in. *)
Definition roomFor (room : nat) : QuotaPolicy :=
  fun key value ls => (String.length key + String.length value <=? room)%nat.

(** * Properties *)

Example toISOString_epoch : JSDate.toISOString 0 = "1970-01-01T00:00:00.000Z".
Proof. reflexivity. Qed.

Example toISOString_2023 : JSDate.toISOString 1700000000000 = "2023-11-14T22:13:20.000Z".
Proof. vm_compute. reflexivity. Qed.

Example toISOString_leap : JSDate.toISOString 951782400123 = "2000-02-29T00:00:00.123Z".
Proof. vm_compute. reflexivity. Qed.

Example toISOString_before_epoch : JSDate.toISOString (-1) = "1969-12-31T23:59:59.999Z".
Proof. vm_compute. reflexivity. Qed.

Example Number_toString_now : Number_toString 1700000000000 = "1700000000000".
Proof. vm_compute. reflexivity. Qed.

Example lower_ex : JSString.toLowerCase "Day-old BREAD" = "day-old bread".
Proof. vm_compute. reflexivity. Qed.

Example stringify_seed :
  JSON.stringify (catalogValue (seedCatalog 0 1700000000000)) =
  sq ("[{'id':'1','title':'Fresh Apples'," +:+
      "'description':'Box of organic apples, slightly bruised but perfectly good'," +:+
      "'category':'fruits','quantity':'5 kg','expiryDate':'2023-12-15'," +:+
      "'location':'Downtown Market','postedBy':'Local Grocer'," +:+
      "'postedAt':'1970-01-01T00:00:00.000Z'}," +:+
      "{'id':'2','title':'Day-old Bread'," +:+
      "'description':'Assorted bakery items from yesterday'," +:+
      "'category':'bakery','quantity':'10 loaves','expiryDate':'2023-12-10'," +:+
      "'location':'Main Street Bakery','postedBy':'Community Kitchen'," +:+
      "'postedAt':'2023-11-14T22:13:20.000Z'}]").
Proof. vm_compute. reflexivity. Qed.

Example stringify_escapes :
  JSON.stringify (JSON.VString (String "009" (sq "say 'hi'\") +:+ String "001" (String "233" ""))) =
  sq "'\tsay \'hi\'\\\u0001" +:+ String "233" (sq "'").
Proof. vm_compute. reflexivity. Qed.

Example parse_mixed :
  JSON.parse (sq " [1, -2.5e+3, true, null, {'a' : [ ], 'b\u0041' : 'x\n'}] ") =
  JSON.Returns (JSON.VArray
    [ JSON.VNumber "1"; JSON.VNumber "-2.5e+3"; JSON.VBool true; JSON.VNull;
      JSON.VObject [("a", JSON.VArray []); ("bA", JSON.VString (String "x" (String "010" "")))] ]).
Proof. vm_compute. reflexivity. Qed.

Example parse_rejects :
  List.map JSON.parse
    [ ""; "{"; "[1,]"; "01"; "1."; "1e"; "-"; "nul"; "truex"; "undefined"; "[1 2]";
      sq "{'a' 1}"; sq "{'a':1,}"; sq "'a"; sq "'\x'"; sq "{a:1}"; "[[[[[[[[" ] =
  List.repeat JSON.ThrowsSyntaxError 17.
Proof. vm_compute. reflexivity. Qed.

Example parse_beyond_latin1 : JSON.parse (sq "'\u4e2d'") = JSON.OutsideModel.
Proof. vm_compute. reflexivity. Qed.

Example list_apple : forall d1 d2,
  map FoodItem.title (list_items (seedCatalog d1 d2) "APPLE" all) = ["Fresh Apples"].
Proof. intros. vm_compute. reflexivity. Qed.


(** ** Strings *)

Module JSStringFacts.
Import JSString.

Lemma app_cons a s t : String a s +:+ t = String a (s +:+ t).
Proof. reflexivity. Qed.

Lemma app_empty_l s : "" +:+ s = s.
Proof. reflexivity. Qed.

Lemma app_empty_r s : s +:+ "" = s.
Proof. induction s as [|a s IH]; [reflexivity|]. rewrite app_cons. congruence. Qed.

Lemma app_assoc s t u : (s +:+ t) +:+ u = s +:+ t +:+ u.
Proof. induction s as [|a s IH]; [reflexivity|]. rewrite !app_cons. congruence. Qed.

Lemma length_app s t : String.length (s +:+ t) = (String.length s + String.length t)%nat.
Proof. induction s as [|a s IH]; [reflexivity|]. rewrite app_cons. simpl. congruence. Qed.

Lemma toLowerCase_app s t : toLowerCase (s +:+ t) = toLowerCase s +:+ toLowerCase t.
Proof. induction s as [|a s IH]; [reflexivity|]. rewrite app_cons. simpl. rewrite IH. reflexivity. Qed.

Lemma prefix_empty s : String.prefix "" s = true.
Proof. destruct s; reflexivity. Qed.

Lemma prefix_cons a t b s :
  String.prefix (String a t) (String b s) = bool_decide (a = b) && String.prefix t s.
Proof. simpl. destruct (ascii_dec a b); case_bool_decide; simpl; congruence. Qed.

Lemma prefix_app t post : String.prefix t (t +:+ post) = true.
Proof.
  induction t as [|a t IH]; [apply prefix_empty|].
  rewrite app_cons, prefix_cons, IH, bool_decide_eq_true_2; reflexivity.
Qed.

Lemma prefix_split t s : String.prefix t s = true -> exists post, s = t +:+ post.
Proof.
  revert s. induction t as [|a t IH]; intros s H.
  - exists s. reflexivity.
  - destruct s as [|b s]; [discriminate|].
    rewrite prefix_cons in H. apply andb_prop in H as [Hab Hts].
    apply bool_decide_eq_true_1 in Hab as ->.
    destruct (IH _ Hts) as [post ->]. exists post. reflexivity.
Qed.

Lemma includes_nil t : includes "" t = String.prefix t "" || false.
Proof. reflexivity. Qed.

Lemma includes_cons a s t :
  includes (String a s) t = String.prefix t (String a s) || includes s t.
Proof. reflexivity. Qed.

(** [includes] finds exactly the substrings. *)
Lemma includes_spec s t :
  includes s t = true <-> exists pre post, s = pre +:+ t +:+ post.
Proof.
  split.
  - induction s as [|a s IH]; intros H.
    + rewrite includes_nil in H. apply orb_prop in H as [H|H]; [|discriminate].
      apply prefix_split in H as [post ->]. exists "", post. reflexivity.
    + rewrite includes_cons in H. apply orb_prop in H as [H|H].
      * apply prefix_split in H as [post ->]. exists "", post. reflexivity.
      * destruct (IH H) as (pre & post & ->). exists (String a pre), post. reflexivity.
  - intros (pre & post & ->). induction pre as [|a pre IH].
    + rewrite app_empty_l. destruct (t +:+ post) as [|b u] eqn:E.
      * rewrite includes_nil, <- E, prefix_app. reflexivity.
      * rewrite includes_cons, <- E, prefix_app. reflexivity.
    + rewrite app_cons, includes_cons, IH. apply orb_true_r.
Qed.

(** A prefix found after lowering both strings is the lowering of a
    prefix of the original. *)
Lemma prefix_lowered t s :
  String.prefix (toLowerCase t) (toLowerCase s) = true ->
  exists mid after, s = mid +:+ after /\ toLowerCase mid = toLowerCase t.
Proof.
  revert s. induction t as [|a t IH]; intros s H.
  - exists "", s. split; reflexivity.
  - destruct s as [|b s]; [discriminate|].
    change (String.prefix (String (lowerUnit a) (toLowerCase t))
                          (String (lowerUnit b) (toLowerCase s)) = true) in H.
    rewrite prefix_cons in H. apply andb_prop in H as [Hab Hts].
    apply bool_decide_eq_true_1 in Hab.
    destruct (IH _ Hts) as (mid & after & -> & Hmid).
    exists (String b mid), after. split; [reflexivity|].
    simpl. congruence.
Qed.

(** Every code unit of the range is in [allUnits]. *)
Lemma in_allUnits a : In a allUnits.
Proof.
  rewrite <- (ascii_nat_embedding a). apply List.in_map, List.in_seq.
  pose proof (nat_ascii_bounded a). lia.
Qed.

Lemma sameLetter_table :
  forallb (fun a => forallb (fun b =>
    Bool.eqb (sameLetter a b) (Ascii.eqb (lowerUnit a) (lowerUnit b))) allUnits) allUnits = true.
Proof. vm_compute. reflexivity. Qed.

(** Two units have the same lower case exactly when they are one letter. *)
Lemma sameLetter_lowerUnit a b : sameLetter a b = true <-> lowerUnit a = lowerUnit b.
Proof.
  pose proof sameLetter_table as H.
  rewrite List.forallb_forall in H. specialize (H a (in_allUnits a)).
  rewrite List.forallb_forall in H. specialize (H b (in_allUnits b)).
  apply Bool.eqb_prop in H. rewrite H. apply Ascii.eqb_eq.
Qed.

Lemma spells_lowered mid t : spells mid t = true <-> toLowerCase mid = toLowerCase t.
Proof.
  revert t. induction mid as [|a mid IH]; intros [|b t]; simpl; try (split; [reflexivity|reflexivity]);
    try (split; discriminate).
  rewrite andb_true_iff, sameLetter_lowerUnit, IH. split.
  - intros [-> ->]. reflexivity.
  - intros [= -> ->]. auto.
Qed.

(** The test of the source, lowering both sides and looking for a
    substring, against the wording: the term occurs, letter case apart. *)
Lemma includes_lowered t s :
  includes (toLowerCase s) (toLowerCase t) = true <-> occursLetterCaseApart t s.
Proof.
  split.
  - induction s as [|a s IH]; intros H.
    + change (toLowerCase "") with "" in H. rewrite includes_nil in H.
      apply orb_prop in H as [H|H]; [|discriminate].
      apply (prefix_lowered t "") in H as (mid & after & E & Hmid).
      exists "", mid, after. split; [exact E|]. apply spells_lowered, Hmid.
    + change (toLowerCase (String a s)) with (String (lowerUnit a) (toLowerCase s)) in H.
      rewrite includes_cons in H. apply orb_prop in H as [H|H].
      * apply (prefix_lowered t (String a s)) in H as (mid & after & E & Hmid).
        exists "", mid, after. split; [exact E|]. apply spells_lowered, Hmid.
      * destruct (IH H) as (before & mid & after & -> & Hmid).
        exists (String a before), mid, after. auto.
  - intros (before & mid & after & -> & Hmid). apply spells_lowered in Hmid.
    apply includes_spec. exists (toLowerCase before), (toLowerCase after).
    rewrite !toLowerCase_app, Hmid. reflexivity.
Qed.

Lemma includes_empty s : includes s "" = true.
Proof. destruct s; reflexivity. Qed.

End JSStringFacts.

(** ** Session *)

Lemma profileOf_named role : UserProfile.name (profileOf role) <> "".
Proof. destruct role as [[]|]; discriminate. Qed.

Lemma handle_cannedUser e st : cannedUser (currentUser st) -> cannedUser (currentUser (handle e st)).
Proof.
  intros H. destruct e; simpl; try exact H.
  - right. eexists. reflexivity.
  - left. reflexivity.
Qed.

(** The current user of a reachable state is absent or a canned profile. *)
Lemma reachable_cannedUser items0 st : reachable items0 st -> cannedUser (currentUser st).
Proof.
  induction 1 as [|e st _ IH].
  - left. reflexivity.
  - apply handle_cannedUser, IH.
Qed.

Lemma reachable_run items0 events st :
  reachable items0 st -> reachable items0 (run events st).
Proof.
  revert st. induction events as [|e events IH]; intros st H; [exact H|].
  apply IH, reachable_handle, H.
Qed.

Lemma posterName_canned u :
  cannedUser u ->
  posterName u = match u with Some p => UserProfile.name p | None => "Anonymous" end.
Proof. intros [->|[[[]|] ->]]; reflexivity. Qed.

(** C6: after a logout, logging in with a role gives the canned profile
    of that role, whatever the state was before: two runs from any two
    states that pick the same role end with the same profile, field by
    field. *)
Theorem C6_login_after_logout_depends_on_role_only (st1 st2 : AppState) (role : UserRole) :
  currentUser (handleLogin role (handleLogout st1)) = Some (profileOf role) /\
  currentUser (handleLogin role (handleLogout st1)) =
  currentUser (handleLogin role (handleLogout st2)) /\
  forall p1 p2,
    currentUser (handleLogin role (handleLogout st1)) = Some p1 ->
    currentUser (handleLogin role (handleLogout st2)) = Some p2 ->
    UserProfile.name p1 = UserProfile.name p2 /\
    UserProfile.role p1 = role /\ UserProfile.role p2 = role /\
    UserProfile.description p1 = UserProfile.description p2 /\
    UserProfile.contact p1 = UserProfile.contact p2.
Proof.
  split; [reflexivity|]. split; [reflexivity|].
  intros p1 p2 H1 H2. simpl in H1, H2.
  injection H1 as <-. injection H2 as <-. repeat split.
Qed.

(** C9: logout writes the current-user cell and nothing else: the
    catalog, the search term, the selected category, the active tab and the
    draft are as before, so whoever logs in next, with any role, is on the
    tab that was active before the logout. *)
Theorem C9_logout_changes_only_current_user (st : AppState) :
  currentUser (handleLogout st) = None /\
  foodItems (handleLogout st) = foodItems st /\
  searchTerm (handleLogout st) = searchTerm st /\
  selectedCategory (handleLogout st) = selectedCategory st /\
  activeTab (handleLogout st) = activeTab st /\
  newFoodItem (handleLogout st) = newFoodItem st /\
  forall role, activeTab (handleLogin role (handleLogout st)) = activeTab st.
Proof. repeat split. Qed.

(** ** Adding an item *)

(** C2: from a reachable state whose draft has every required field
    filled, submitting appends exactly one item at the end of the catalog;
    the item is posted by the active user's name, or by Anonymous when
    nobody is logged in, carries the clock readings as id and postedAt, and
    the draft is reset and the listing tab selected. *)
Theorem C2_submit_appends_one_stamped_item
    (items0 : list FoodItem.t) (st : AppState) (dateNow : Z) (newDate : JSDate.t) :
  reachable items0 st ->
  Draft.requiredFilled (newFoodItem st) ->
  let st' := handleSubmitFoodItem dateNow newDate st in
  exists item,
    foodItems st' = foodItems st ++ [item] /\
    length (foodItems st') = S (length (foodItems st)) /\
    FoodItem.postedBy item =
      match currentUser st with
      | Some user => UserProfile.name user
      | None => "Anonymous"
      end /\
    FoodItem.id item = Number_toString dateNow /\
    FoodItem.postedAt item = DateObject newDate /\
    newFoodItem st' = Draft.initial /\
    activeTab st' = "listings".
Proof.
  intros Hreach _ st'. exists (newItem dateNow newDate st).
  repeat split.
  - simpl. rewrite length_app. simpl. lia.
  - simpl. apply posterName_canned. eapply reachable_cannedUser, Hreach.
Qed.

Lemma donorWithSoup_reachable :
  reachable (seedCatalog 1700000000000 1700000000000) donorWithSoup.
Proof. apply reachable_run, reachable_initial. Qed.

(** The donor of the scenario posts the soup: a third item, posted by
    "Food Donor", with the clock reading as id. *)
Lemma C2_witness :
  exists item,
    foodItems (handleSubmitFoodItem 1700000123456 1700000123457 donorWithSoup) =
      foodItems donorWithSoup ++ [item] /\
    length (foodItems (handleSubmitFoodItem 1700000123456 1700000123457 donorWithSoup)) = 3%nat /\
    FoodItem.postedBy item = "Food Donor" /\
    FoodItem.id item = "1700000123456".
Proof.
  destruct (C2_submit_appends_one_stamped_item
              (seedCatalog 1700000000000 1700000000000) donorWithSoup
              1700000123456 1700000123457)
    as (item & Happ & Hlen & Hby & Hid & _).
  - exact donorWithSoup_reachable.
  - vm_compute. repeat split; discriminate.
  - exists item. split; [exact Happ|]. split; [exact Hlen|]. split; [exact Hby|].
    rewrite Hid. vm_compute. reflexivity.
Defined.

(** C10: submitting checks nothing.  Whatever the draft holds, the item
    built from it is appended; with the empty draft the form starts with,
    the appended item has the empty string in every free-text field. *)
Theorem C10_submit_does_not_validate (st : AppState) (dateNow : Z) (newDate : JSDate.t) :
  foodItems (handleSubmitFoodItem dateNow newDate st) =
    foodItems st ++
    [ FoodItem.mk (Number_toString dateNow)
        (Draft.title (newFoodItem st)) (Draft.description (newFoodItem st))
        (Draft.category (newFoodItem st)) (Draft.quantity (newFoodItem st))
        (Draft.expiryDate (newFoodItem st)) (Draft.location (newFoodItem st))
        (posterName (currentUser st)) (DateObject newDate) ] /\
  foodItems (handleSubmitFoodItem dateNow newDate (setNewFoodItem Draft.initial st)) =
    foodItems st ++
    [ FoodItem.mk (Number_toString dateNow) "" "" fruits "" "" ""
        (posterName (currentUser st)) (DateObject newDate) ].
Proof. split; reflexivity. Qed.

(** ** Identifiers *)

(** Submitting keeps the ids distinct when the clock reading, written in
    decimal, is not yet an id of the catalog. *)
Lemma submit_uniqueIds_fresh st dateNow newDate :
  uniqueIds (foodItems st) ->
  Number_toString dateNow ∉ List.map FoodItem.id (foodItems st) ->
  uniqueIds (foodItems (handleSubmitFoodItem dateNow newDate st)).
Proof.
  unfold uniqueIds. simpl. intros Hnd Hfresh.
  rewrite List.map_app. simpl. apply NoDup_app. repeat split.
  - exact Hnd.
  - intros x Hx Hin. apply list_elem_of_singleton in Hin. congruence.
  - apply NoDup_singleton.
Qed.

(** C4: the seed catalog has distinct ids, and two submissions that read
    the same value from [Date.now()] leave two items with one id in a
    reachable catalog. *)
Theorem C4_same_clock_reading_duplicates_id :
  let st0 := initialState (seedCatalog 1700000000000 1700000000000) in
  let st := run twoPostsOneReading st0 in
  uniqueIds (foodItems st0) /\
  reachable (seedCatalog 1700000000000 1700000000000) st /\
  List.map FoodItem.id (foodItems st) = ["1"; "2"; "1700000123456"; "1700000123456"] /\
  ~ uniqueIds (foodItems st).
Proof.
  intros st0 st. split; [|split; [|split]].
  - unfold uniqueIds. simpl. apply NoDup_cons_2; [|apply NoDup_singleton].
    intros Hin. apply list_elem_of_singleton in Hin. discriminate.
  - apply reachable_run, reachable_initial.
  - vm_compute. reflexivity.
  - unfold uniqueIds.
    replace (List.map FoodItem.id (foodItems st))
      with ["1"; "2"; "1700000123456"; "1700000123456"] by (vm_compute; reflexivity).
    intros H. apply NoDup_cons_1_2 in H. apply NoDup_cons_1_2 in H.
    apply NoDup_cons_1_1 in H. apply H. left.
Qed.

(** ** The listing *)

Lemma matchesCategory_spec sel item :
  matchesCategory sel item = true <-> categoryConstraint sel item.
Proof.
  unfold matchesCategory, categoryConstraint.
  rewrite orb_true_iff, !bool_decide_eq_true. intuition congruence.
Qed.

Lemma matchesSearch_spec term item :
  matchesSearch term item = true <-> searchConstraint term item.
Proof.
  unfold matchesSearch, searchConstraint.
  rewrite orb_true_iff, !JSStringFacts.includes_lowered. reflexivity.
Qed.

Lemma List_filter_Selects {A} (f : A -> bool) (P : A -> Prop) l :
  (forall x, f x = true <-> P x) -> Selects P l (List.filter f l).
Proof.
  intros Hf. induction l as [|x l IH]; simpl.
  - constructor.
  - destruct (f x) eqn:E.
    + apply Selects_keep; [apply Hf, E | exact IH].
    + apply Selects_drop; [|exact IH]. intros HP. apply Hf in HP. congruence.
Qed.

(** What [Selects] relates a list to is determined by the list. *)
Lemma Selects_functional {A} (P : A -> Prop) l k1 k2 :
  Selects P l k1 -> Selects P l k2 -> k1 = k2.
Proof.
  intros H1. revert k2. induction H1; intros k2 H2; inversion H2; subst;
    try reflexivity; try contradiction; auto using f_equal.
Qed.

(** Letter case apart, unit by unit: the multiplication and division
    signs are 32 places apart and are not one letter. *)
Example spells_examples :
  List.map (fun p => spells (fst p) (snd p))
    [ ("APPLE", "apple"); ("Apple", "aPPLE"); ("apple", "apples"); ("a-b", "a_b") ] =
    [true; true; false; false] /\
  sameLetter "215" "247" = false /\ sameLetter "201" "233" = true.
Proof. vm_compute. auto. Qed.

(** *** Over UTF-16 strings *)

(** The capital sigma: small sigma inside a word and alone, final sigma
    at the end of a word, a full stop before or after it not counting. *)
Example toLowerCase_sigma :
  List.map Wide.toLowerCase
    [ [0x39F; 0x394; 0x3A5; 0x3A3; 0x3A3; 0x395; 0x3A5; 0x3A3];
      [0x3A3];
      [0x41; 0x2E; 0x3A3];
      [0x41; 0x3A3; 0x20; 0x42];
      [0x391; 0x3A3; 0x2E; 0x392] ]%N =
  List.map Some
    [ [0x3BF; 0x3B4; 0x3C5; 0x3C3; 0x3C3; 0x3B5; 0x3C5; 0x3C2];
      [0x3C3];
      [0x61; 0x2E; 0x3C2];
      [0x61; 0x3C2; 0x20; 0x62];
      [0x3B1; 0x3C3; 0x2E; 0x3B2] ]%N.
Proof. vm_compute. reflexivity. Qed.

Example toLowerCase_latin1 :
  Wide.toLowerCase [0xC0; 0xC9; 0xCE; 0xD5; 0xDC; 0xD7; 0xDE; 0x53; 0xDF; 0xFF]%N =
  Some [0xE0; 0xE9; 0xEE; 0xF5; 0xFC; 0xD7; 0xFE; 0x73; 0xDF; 0xFF]%N.
Proof. vm_compute. reflexivity. Qed.

(** Outside the repertoire the tables say nothing: U+0130, whose lower
    case is two code units, and a CJK ideograph. *)
Example toLowerCase_outside :
  List.map Wide.toLowerCase [ [0x130]; [0x41; 0x4E2D] ]%N = [None; None].
Proof. vm_compute. reflexivity. Qed.


Lemma wide_startsWith_spec s t :
  Wide.startsWith s t = true <-> exists after, s = t ++ after.
Proof.
  revert s. induction t as [|c t IH]; intros s; simpl.
  - split; [intros _; exists s; reflexivity | intros _; reflexivity].
  - destruct s as [|d s].
    + split; [discriminate | intros [after [=]]].
    + rewrite andb_true_iff, N.eqb_eq, IH. split.
      * intros [-> [after ->]]. exists after. reflexivity.
      * intros [after [= -> ->]]. split; [reflexivity | exists after; reflexivity].
Qed.

Lemma wide_includes_unfold s t :
  Wide.includes s t =
  Wide.startsWith s t || match s with [] => false | _ :: s' => Wide.includes s' t end.
Proof. destruct s; reflexivity. Qed.

(** [includes] finds exactly the stretches. *)
Lemma wide_includes_spec s t : Wide.includes s t = true <-> Wide.occursIn t s.
Proof.
  unfold Wide.occursIn. split.
  - induction s as [|d s IH]; rewrite wide_includes_unfold, orb_true_iff; intros [H|H].
    + apply wide_startsWith_spec in H as [after ->]. exists [], after. reflexivity.
    + discriminate.
    + apply wide_startsWith_spec in H as [after ->]. exists [], after. reflexivity.
    + destruct (IH H) as (before & after & ->). exists (d :: before), after. reflexivity.
  - intros (before & after & ->). induction before as [|d before IH].
    + rewrite wide_includes_unfold, orb_true_iff. left.
      apply wide_startsWith_spec. exists after. reflexivity.
    + rewrite wide_includes_unfold, orb_true_iff. right. exact IH.
Qed.

Lemma wide_matchesSearch_spec lower term item :
  Wide.matchesSearch lower term item = true <-> Wide.searchConstraint lower term item.
Proof.
  unfold Wide.matchesSearch, Wide.searchConstraint.
  rewrite orb_true_iff, !wide_includes_spec. reflexivity.
Qed.

Lemma wide_matchesCategory_spec sel item :
  Wide.matchesCategory sel item = true <-> Wide.categoryConstraint sel item.
Proof.
  unfold Wide.matchesCategory, Wide.categoryConstraint.
  rewrite orb_true_iff, !bool_decide_eq_true. intuition congruence.
Qed.

(** The lowering of the tables is one of the lowerings that agree with
    them. *)
Lemma lowerFrom_agreesWithTables : Wide.agreesWithTables (Wide.lowerFrom []).
Proof.
  intros s t. unfold Wide.toLowerCase. destruct (forallb _ _); congruence.
Qed.

Lemma matchesSearchByTables_sound lower term item found :
  Wide.agreesWithTables lower ->
  Wide.matchesSearchByTables term item = Some found ->
  Wide.matchesSearch lower term item = found.
Proof.
  intros Hlower. unfold Wide.matchesSearchByTables, Wide.matchesSearch.
  destruct (Wide.toLowerCase (Wide.title item)) as [t|] eqn:Et; [|discriminate].
  destruct (Wide.toLowerCase term) as [s|] eqn:Es; [|discriminate].
  cbn [mbind option_bind]. rewrite (Hlower _ _ Et), (Hlower _ _ Es).
  destruct (Wide.includes t s); [intros [= <-]; reflexivity|].
  destruct (Wide.toLowerCase (Wide.description item)) as [d|] eqn:Ed; [|discriminate].
  cbn [mbind option_bind]. rewrite (Hlower _ _ Ed). intros [= <-]. reflexivity.
Qed.

(** What the filter of the tables returns, the filter returns with every
    lowering that agrees with the tables. *)
Lemma list_itemsByTables_sound lower items term sel kept :
  Wide.agreesWithTables lower ->
  Wide.list_itemsByTables items term sel = Some kept ->
  Wide.list_items lower items term sel = kept.
Proof.
  intros Hlower. revert kept. induction items as [|item items IH]; intros kept.
  - intros [= <-]. reflexivity.
  - cbn [Wide.list_itemsByTables].
    destruct (Wide.matchesSearchByTables term item) as [found|] eqn:Ef; [|discriminate].
    destruct (Wide.list_itemsByTables items term sel) as [rest|]; [|discriminate].
    cbn [mbind option_bind]. intros [= <-].
    unfold Wide.list_items. cbn [List.filter].
    rewrite (matchesSearchByTables_sound _ _ _ _ Hlower Ef).
    fold (Wide.list_items lower items term sel). rewrite (IH rest eq_refl). reflexivity.
Qed.

(** *** Texts of the range U+0000 .. U+00FF among the UTF-16 strings *)

Lemma inRepertoire_ofString s : forallb Wide.inRepertoire (Wide.ofString s) = true.
Proof.
  induction s as [|c s IH]; [reflexivity|]. cbn [Wide.ofString forallb]. rewrite IH, andb_true_r.
  unfold Wide.inRepertoire. pose proof (N_ascii_bounded c).
  replace (N_of_ascii c <=? 255)%N with true; [reflexivity|].
  symmetry. apply N.leb_le. lia.
Qed.

(** In the range, the lower case of a unit does not depend on what is
    around it, and is what [JSString.lowerUnit] gives. *)
Lemma lowerAt_ofUnit before c after :
  Wide.lowerAt before (N_of_ascii c) after = N_of_ascii (JSString.lowerUnit c).
Proof. destruct c as [[] [] [] [] [] [] [] []]; reflexivity. Qed.

Lemma lowerFrom_ofString before s :
  Wide.lowerFrom before (Wide.ofString s) = Wide.ofString (JSString.toLowerCase s).
Proof.
  revert before. induction s as [|c s IH]; intros before; [reflexivity|].
  cbn [Wide.ofString Wide.lowerFrom JSString.toLowerCase]. rewrite lowerAt_ofUnit, IH. reflexivity.
Qed.

Lemma toLowerCase_ofString s :
  Wide.toLowerCase (Wide.ofString s) = Some (Wide.ofString (JSString.toLowerCase s)).
Proof. unfold Wide.toLowerCase. rewrite inRepertoire_ofString, lowerFrom_ofString. reflexivity. Qed.

Lemma N_of_ascii_eqb a b : (N_of_ascii a =? N_of_ascii b)%N = bool_decide (a = b).
Proof.
  case_bool_decide as H.
  - subst. apply N.eqb_refl.
  - apply N.eqb_neq. intros E. apply H.
    rewrite <- (ascii_N_embedding a), <- (ascii_N_embedding b), E. reflexivity.
Qed.

Lemma startsWith_ofString s t :
  Wide.startsWith (Wide.ofString s) (Wide.ofString t) = String.prefix t s.
Proof.
  revert s. induction t as [|a t IH]; intros s.
  - rewrite JSStringFacts.prefix_empty. reflexivity.
  - destruct s as [|b s]; [reflexivity|].
    rewrite JSStringFacts.prefix_cons. cbn [Wide.ofString Wide.startsWith].
    rewrite N_of_ascii_eqb, IH. reflexivity.
Qed.

Lemma includes_ofString s t :
  Wide.includes (Wide.ofString s) (Wide.ofString t) = JSString.includes s t.
Proof.
  induction s as [|b s IH].
  - rewrite JSStringFacts.includes_nil. change (Wide.ofString "") with (@nil N).
    rewrite wide_includes_unfold. change (@nil N) with (Wide.ofString "").
    rewrite startsWith_ofString. reflexivity.
  - rewrite JSStringFacts.includes_cons. cbn [Wide.ofString].
    rewrite wide_includes_unfold, <- IH.
    change (N_of_ascii b :: Wide.ofString s) with (Wide.ofString (String b s)).
    rewrite startsWith_ofString. reflexivity.
Qed.

Lemma matchesSearchByTables_wideItem term item :
  Wide.matchesSearchByTables (Wide.ofString term) (wideItem item) = Some (matchesSearch term item).
Proof.
  unfold Wide.matchesSearchByTables, matchesSearch. cbn [wideItem Wide.title Wide.description].
  rewrite !toLowerCase_ofString. cbn [mbind option_bind]. rewrite includes_ofString.
  destruct (JSString.includes _ _); [reflexivity|].
  cbn [mbind option_bind]. rewrite includes_ofString. reflexivity.
Qed.

(** On texts of the range, the filter of the tables is the filter over
    8-bit strings. *)
Lemma list_itemsByTables_wideItem items term sel :
  Wide.list_itemsByTables (List.map wideItem items) (Wide.ofString term) sel =
  Some (List.map wideItem (list_items items term sel)).
Proof.
  induction items as [|item items IH]; [reflexivity|].
  cbn [List.map Wide.list_itemsByTables].
  rewrite matchesSearchByTables_wideItem, IH. cbn [mbind option_bind].
  unfold list_items. cbn [List.filter]. fold (list_items items term sel).
  change (Wide.matchesCategory sel (wideItem item)) with (matchesCategory sel item).
  destruct (matchesSearch term item && matchesCategory sel item); reflexivity.
Qed.

(** C3: the listing is the catalog with exactly those items kept, in
    catalog order, that satisfy the category constraint (the selection is
    "all" or is the item's category) and the search constraint, which is:
    the lower-case form of the term is a stretch of the lower-case form of
    the title or of the description, whatever [toLowerCase] computes.  For
    a catalog and a term of code units U+0000 .. U+00FF the search
    constraint is that the term occurs in the title or in the description
    letter case apart (unit by unit the same letter), and the listing over
    8-bit strings is the listing the Unicode tables give. *)
Theorem C3_list_keeps_items_whose_lowered_text_has_lowered_term :
  (forall (lower : Wide.ustring -> Wide.ustring) (items : list Wide.FoodItem)
          (term : Wide.ustring) (sel : CategoryFilter),
     Selects (fun item => Wide.categoryConstraint sel item /\
                          Wide.searchConstraint lower term item)
             items (Wide.list_items lower items term sel)) /\
  (forall (items : list FoodItem.t) (term : string) (sel : CategoryFilter),
     Selects (fun item => categoryConstraint sel item /\ searchConstraint term item)
             items (list_items items term sel) /\
     Wide.list_itemsByTables (List.map wideItem items) (Wide.ofString term) sel =
       Some (List.map wideItem (list_items items term sel))).
Proof.
  split.
  - intros lower items term sel. apply List_filter_Selects. intros item.
    rewrite andb_true_iff, wide_matchesSearch_spec, wide_matchesCategory_spec. tauto.
  - intros items term sel. split.
    + apply List_filter_Selects. intros item.
      rewrite andb_true_iff, matchesSearch_spec, matchesCategory_spec. tauto.
    + apply list_itemsByTables_wideItem.
Qed.

(** C3, against the wording "the case-insensitive search term is a
    substring of the title": the term of the three Greek capitals pi alpha
    sigma is a stretch of the title pi alpha sigma tau alpha, and the
    category is "all", yet the item is not listed.  The sigma ends the term
    and is lowered to the final sigma U+03C2; in the title it is lowered to
    U+03C3. *)
Lemma C3_capital_sigma_term_misses_its_title :
  Wide.occursIn capitalPAS (Wide.title pastaItem) /\
  Wide.categoryConstraint all pastaItem /\
  Wide.toLowerCase capitalPAS = Some [0x3C0; 0x3B1; 0x3C2]%N /\
  Wide.toLowerCase capitalPASTA = Some [0x3C0; 0x3B1; 0x3C3; 0x3C4; 0x3B1]%N /\
  Wide.list_itemsByTables [pastaItem] capitalPAS all = Some [] /\
  (forall lower, Wide.agreesWithTables lower ->
     Wide.list_items lower [pastaItem] capitalPAS all = []).
Proof.
  split; [exists [], [0x3A4; 0x391]%N; reflexivity|].
  split; [left; reflexivity|].
  split; [vm_compute; reflexivity|].
  split; [vm_compute; reflexivity|].
  assert (H : Wide.list_itemsByTables [pastaItem] capitalPAS all = Some [])
    by (vm_compute; reflexivity).
  split; [exact H|].
  intros lower Hlower. apply (list_itemsByTables_sound _ _ _ _ _ Hlower H).
Qed.

(** C7: with the empty search term and the category "all", the listing
    is the whole catalog, in its order. *)
Theorem C7_list_empty_term_all_is_catalog (items : list FoodItem.t) :
  list_items items "" all = items.
Proof.
  assert (Hall : forall item, matchesSearch "" item && matchesCategory all item = true).
  { intros item. unfold matchesSearch. change (JSString.toLowerCase "") with "".
    rewrite JSStringFacts.includes_empty. reflexivity. }
  unfold list_items. induction items as [|item items IH]; [reflexivity|].
  cbn [List.filter]. rewrite Hall, IH. reflexivity.
Qed.

(** C8: over the two seed items, the term "bread" with the category
    fruits lists nothing: the apples are fruits but do not mention bread,
    and the bread mentions it but is bakery. *)
Theorem C8_bread_among_fruits_is_empty (date1 date2 : JSDate.t) :
  list_items (seedCatalog date1 date2) "bread" (only fruits) = [] /\
  List.map (fun item => (FoodItem.title item, matchesSearch "bread" item,
                         matchesCategory (only fruits) item))
           (seedCatalog date1 date2) =
    [ ("Fresh Apples", false, true); ("Day-old Bread", true, false) ].
Proof. split; vm_compute; reflexivity. Qed.

(** ** JSON: what [stringify] writes, [parse] reads back *)

Module JSONFacts.
Import JSON JSStringFacts.

(** *** String literals *)

Lemma parse_chars_quoteUnit c rest :
  parse_chars (quoteUnit c +:+ rest) = consUnit c (parse_chars rest).
Proof. destruct c as [[] [] [] [] [] [] [] []]; reflexivity. Qed.

Lemma parse_chars_quoteUnits s rest :
  parse_chars (quoteUnits s +:+ String dquote rest) = Returns (s, rest).
Proof.
  induction s as [|c s IH]; [reflexivity|].
  cbn [quoteUnits]. rewrite app_assoc, parse_chars_quoteUnit, IH. reflexivity.
Qed.

Lemma quote_app s rest :
  quote s +:+ rest = String dquote (quoteUnits s +:+ String dquote rest).
Proof. unfold quote. rewrite app_cons, app_assoc. reflexivity. Qed.

(** *** One step of the parser on each kind of text *)

Lemma parse_value_quoted n text rest :
  parse_value (S n) (quote text +:+ rest) = Returns (VString text, rest).
Proof.
  rewrite quote_app. cbn [parse_value]. 
  change (skip_ws (String dquote ?x)) with (String dquote x).
  cbv beta iota. 
  change (Ascii.eqb dquote "[") with false.
  change (Ascii.eqb dquote "{") with false.
  change (Ascii.eqb dquote dquote) with true.
  cbv beta iota. rewrite parse_chars_quoteUnits. reflexivity.
Qed.

Lemma parse_value_bracket n text :
  parse_value (S n) (String "[" text) =
  match startsWith "]" (skip_ws text) with
  | Some rest => Returns (VArray [], rest)
  | None => let* (vs, rest) := parse_elements n text in Returns (VArray vs, rest)
  end.
Proof. reflexivity. Qed.

Lemma parse_value_brace n text :
  parse_value (S n) (String "{" text) =
  match startsWith "}" (skip_ws text) with
  | Some rest => Returns (VObject [], rest)
  | None => let* (ps, rest) := parse_members n text in Returns (VObject ps, rest)
  end.
Proof. reflexivity. Qed.

Lemma parse_elements_step n text :
  parse_elements (S n) text =
  let* (v, r) := parse_value n text in
  match skip_ws r with
  | EmptyString => ThrowsSyntaxError
  | String c r' =>
    if Ascii.eqb c "," then
      let* (vs, r'') := parse_elements n r' in Returns (v :: vs, r'')
    else if Ascii.eqb c "]" then Returns ([v], r')
    else ThrowsSyntaxError
  end.
Proof. reflexivity. Qed.

Lemma parse_members_step n key text :
  parse_members (S n) (quote key +:+ String ":" text) =
  let* (v, r) := parse_value n text in
  match skip_ws r with
  | EmptyString => ThrowsSyntaxError
  | String c r' =>
    if Ascii.eqb c "," then
      let* (ps, r'') := parse_members n r' in Returns ((key, v) :: ps, r'')
    else if Ascii.eqb c "}" then Returns ([(key, v)], r')
    else ThrowsSyntaxError
  end.
Proof.
  rewrite quote_app. cbn [parse_members].
  change (skip_ws (String dquote ?x)) with (String dquote x).
  change (startsWith dquote (String dquote ?x)) with (Some x).
  cbv beta iota. rewrite parse_chars_quoteUnits. reflexivity.
Qed.

(** The text of a value starts with what cannot be skipped and closes
    nothing. *)
Lemma stringify_head v rest :
  numberless v = true ->
  skip_ws (stringify v +:+ rest) = stringify v +:+ rest /\
  startsWith "]" (stringify v +:+ rest) = None /\
  startsWith "}" (stringify v +:+ rest) = None.
Proof.
  destruct v as [|[]| | | | |]; intros H; try discriminate H;
    cbn [stringify]; rewrite ?quote_app; repeat split.
Qed.

Lemma concat_one sep x : String.concat sep [x] = x.
Proof. reflexivity. Qed.

Lemma concat_more sep x y l :
  String.concat sep (x :: y :: l) = x +:+ sep +:+ String.concat sep (y :: l).
Proof. reflexivity. Qed.

Lemma stringify_array_app vs rest :
  stringify (VArray vs) +:+ rest = String "[" (elementsText vs +:+ String "]" rest).
Proof.
  change (String "[" ((elementsText vs +:+ "]") +:+ rest) = String "[" (elementsText vs +:+ String "]" rest)).
  rewrite app_assoc. reflexivity.
Qed.

Lemma stringify_object_app ps rest :
  stringify (VObject ps) +:+ rest = String "{" (membersText ps +:+ String "}" rest).
Proof.
  change (String "{" ((membersText ps +:+ "}") +:+ rest) = String "{" (membersText ps +:+ String "}" rest)).
  rewrite app_assoc. reflexivity.
Qed.

Lemma elementsText_cons v vs rest :
  elementsText (v :: vs) +:+ String "]" rest =
  stringify v +:+
    match vs with
    | [] => String "]" rest
    | _ :: _ => String "," (elementsText vs +:+ String "]" rest)
    end.
Proof.
  destruct vs as [|w ws]; [reflexivity|].
  unfold elementsText. cbn [List.map]. rewrite concat_more, !app_assoc. reflexivity.
Qed.

Lemma membersText_cons p ps rest :
  membersText (p :: ps) +:+ String "}" rest =
  quote (fst p) +:+ String ":" (stringify (snd p) +:+
    match ps with
    | [] => String "}" rest
    | _ :: _ => String "," (membersText ps +:+ String "}" rest)
    end).
Proof.
  destruct ps as [|q qs].
  - unfold membersText, memberText. cbn [List.map]. rewrite concat_one, app_assoc. reflexivity.
  - unfold membersText. cbn [List.map]. rewrite concat_more. unfold memberText at 1.
    rewrite !app_assoc, !app_cons. reflexivity.
Qed.

Lemma weight_cons v vs : weight (v :: vs) = S (size v + weight vs).
Proof. reflexivity. Qed.

Lemma weightP_cons p ps : weightP (p :: ps) = S (size (snd p) + weightP ps).
Proof. reflexivity. Qed.

Lemma size_pos v : (1 <= size v)%nat.
Proof. destruct v; simpl; lia. Qed.

(** *** Reading back, with fuel to spare *)

Lemma parse_back n :
  (forall v rest,
     (size v <= n)%nat -> numberless v = true ->
     parse_value n (stringify v +:+ rest) = Returns (plain v, rest)) /\
  (forall v vs rest,
     (weight (v :: vs) <= n)%nat -> forallb numberless (v :: vs) = true ->
     parse_elements n (elementsText (v :: vs) +:+ String "]" rest) =
     Returns (List.map plain (v :: vs), rest)) /\
  (forall p ps rest,
     (weightP (p :: ps) <= n)%nat ->
     forallb (fun p => numberless (snd p)) (p :: ps) = true ->
     parse_members n (membersText (p :: ps) +:+ String "}" rest) =
     Returns (List.map (fun p => (fst p, plain (snd p))) (p :: ps), rest)).
Proof.
  induction n as [|n (IHv & IHe & IHm)].
  - split; [|split].
    + intros v rest H. pose proof (size_pos v). lia.
    + intros v vs rest H. rewrite weight_cons in H. lia.
    + intros p ps rest H. rewrite weightP_cons in H. lia.
  - split; [|split].
    + intros v rest Hsize Hnum.
      destruct v as [|[]|lit|text|vs|ps|tv]; try discriminate Hnum.
      * reflexivity.
      * reflexivity.
      * reflexivity.
      * apply parse_value_quoted.
      * rewrite stringify_array_app, parse_value_bracket.
        destruct vs as [|x xs]; [reflexivity|].
        cbn [numberless] in Hnum. cbn [size] in Hsize. fold (weight (x :: xs)) in Hsize.
        pose proof Hnum as Hx. cbn [forallb] in Hx. apply andb_prop in Hx as [Hx _].
        rewrite elementsText_cons.
        destruct (stringify_head x
                    match xs with
                    | [] => String "]" rest
                    | _ :: _ => String "," (elementsText xs +:+ String "]" rest)
                    end Hx) as (-> & -> & _).
        rewrite <- elementsText_cons. rewrite IHe by (assumption || lia). reflexivity.
      * rewrite stringify_object_app, parse_value_brace.
        destruct ps as [|q qs]; [reflexivity|].
        cbn [numberless] in Hnum. cbn [size] in Hsize. fold (weightP (q :: qs)) in Hsize.
        rewrite IHm by (assumption || lia).
        rewrite membersText_cons, quote_app. reflexivity.
      * apply parse_value_quoted.
    + intros v vs rest Hw Hnum.
      cbn [forallb] in Hnum. apply andb_prop in Hnum as [Hv Hvs].
      rewrite weight_cons in Hw.
      rewrite elementsText_cons, parse_elements_step, IHv by (assumption || lia).
      destruct vs as [|w ws]; [reflexivity|].
      cbn [bind]. change (skip_ws (String "," ?x)) with (String "," x). cbv beta iota.
      change (Ascii.eqb "," ",") with true. cbv beta iota.
      rewrite IHe by (assumption || lia). reflexivity.
    + intros p ps rest Hw Hnum.
      cbn [forallb] in Hnum. apply andb_prop in Hnum as [Hp Hps].
      rewrite weightP_cons in Hw.
      rewrite membersText_cons, parse_members_step, IHv by (assumption || lia).
      destruct ps as [|q qs]; [reflexivity|].
      cbn [bind]. change (skip_ws (String "," ?x)) with (String "," x). cbv beta iota.
      change (Ascii.eqb "," ",") with true. cbv beta iota.
      rewrite IHm by (assumption || lia). reflexivity.
Qed.

(** *** The fuel [parse] takes is enough *)

Lemma length_elementsText_more x y l :
  String.length (elementsText (x :: y :: l)) =
  (String.length (stringify x) + 1 + String.length (elementsText (y :: l)))%nat.
Proof.
  unfold elementsText. cbn [List.map]. rewrite concat_more, !length_app.
  change (String.length ",") with 1%nat. lia.
Qed.

Lemma length_membersText_more p q l :
  String.length (membersText (p :: q :: l)) =
  (String.length (memberText p) + 1 + String.length (membersText (q :: l)))%nat.
Proof.
  unfold membersText. cbn [List.map]. rewrite concat_more, !length_app.
  change (String.length ",") with 1%nat. lia.
Qed.

Lemma weight_le_text vs :
  Forall (fun x => (size x <= String.length (stringify x))%nat) vs ->
  (weight vs <= S (String.length (elementsText vs)))%nat.
Proof.
  induction 1 as [|x xs Hx _ IH]; [unfold weight; simpl; lia|].
  rewrite weight_cons. destruct xs as [|y l].
  - unfold elementsText. cbn [List.map]. rewrite concat_one.
    change (weight []) with 0%nat. lia.
  - rewrite length_elementsText_more. lia.
Qed.

Lemma weightP_le_text ps :
  Forall (fun p => (size (snd p) <= String.length (stringify (snd p)))%nat) ps ->
  (weightP ps <= S (String.length (membersText ps)))%nat.
Proof.
  induction 1 as [|p ps Hp _ IH]; [unfold weightP; simpl; lia|].
  rewrite weightP_cons.
  assert (Hm : (size (snd p) <= String.length (memberText p))%nat).
  { unfold memberText. rewrite length_app. simpl String.length. lia. }
  destruct ps as [|q l].
  - unfold membersText. cbn [List.map]. rewrite concat_one.
    change (weightP []) with 0%nat. lia.
  - rewrite length_membersText_more. lia.
Qed.

Lemma size_le_bounded n v :
  (size v <= n)%nat -> numberless v = true ->
  (size v <= String.length (stringify v))%nat.
Proof.
  revert v. induction n as [|n IH]; intros v Hn Hnum.
  { pose proof (size_pos v). lia. }
  destruct v as [|[]|lit|text|vs|ps|tv]; try discriminate Hnum; try (simpl; lia).
  - cbn [size] in Hn |- *. fold (weight vs) in Hn |- *.
    cbn [numberless] in Hnum.
    assert (HF : Forall (fun x => (size x <= String.length (stringify x))%nat) vs).
    { clear - IH Hn Hnum. induction vs as [|x xs IHxs]; constructor.
      - rewrite weight_cons in Hn. cbn [forallb] in Hnum.
        apply andb_prop in Hnum as [Hx _]. apply IH; [lia|exact Hx].
      - rewrite weight_cons in Hn. cbn [forallb] in Hnum.
        apply andb_prop in Hnum as [_ Hxs]. apply IHxs; [lia|exact Hxs]. }
    apply weight_le_text in HF.
    cbn [stringify]. fold (elementsText vs). rewrite !length_app. simpl String.length. lia.
  - cbn [size] in Hn |- *. fold (weightP ps) in Hn |- *.
    cbn [numberless] in Hnum.
    assert (HF : Forall (fun p => (size (snd p) <= String.length (stringify (snd p)))%nat) ps).
    { clear - IH Hn Hnum. induction ps as [|p ps IHps]; constructor.
      - rewrite weightP_cons in Hn. cbn [forallb] in Hnum.
        apply andb_prop in Hnum as [Hp _]. apply IH; [lia|exact Hp].
      - rewrite weightP_cons in Hn. cbn [forallb] in Hnum.
        apply andb_prop in Hnum as [_ Hps]. apply IHps; [lia|exact Hps]. }
    apply weightP_le_text in HF.
    cbn [stringify]. fold memberText. fold (membersText ps).
    rewrite !length_app. simpl String.length. lia.
Qed.

Lemma size_le_fuel v : numberless v = true -> (size v <= fuel_for (stringify v))%nat.
Proof.
  intros Hnum. pose proof (size_le_bounded (size v) v (le_n _) Hnum). unfold fuel_for. lia.
Qed.

(** *** [parse] never runs out of fuel *)

Lemma bind_Returns {A B} (m : Outcome A) (f : A -> Outcome B) b :
  bind m f = Returns b -> exists a, m = Returns a /\ f a = Returns b.
Proof. destruct m; simpl; intros H; try discriminate H. eauto. Qed.

Lemma bind_OutOfFuel {A B} (m : Outcome A) (f : A -> Outcome B) :
  bind m f = OutOfFuel -> m = OutOfFuel \/ exists a, m = Returns a /\ f a = OutOfFuel.
Proof. destruct m; simpl; intros H; try discriminate H; eauto. Qed.

Lemma skip_ws_length s : (String.length (skip_ws s) <= String.length s)%nat.
Proof. induction s as [|c s IH]; simpl; [lia|]. destruct (is_ws c); simpl; lia. Qed.

Lemma startsWith_length c s rest :
  startsWith c s = Some rest -> String.length s = S (String.length rest).
Proof.
  destruct s as [|a s]; simpl; [discriminate|].
  destruct (Ascii.eqb a c); intros H; inversion H. reflexivity.
Qed.

Lemma consUnit_Returns c m str rest :
  consUnit c m = Returns (str, rest) -> exists str', m = Returns (str', rest).
Proof.
  unfold consUnit. intros H. apply bind_Returns in H as ([str' rest'] & -> & H).
  inversion H. eauto.
Qed.

Lemma consUnit_OutOfFuel c m : consUnit c m = OutOfFuel -> m = OutOfFuel.
Proof.
  unfold consUnit. intros H. apply bind_OutOfFuel in H as [H|([str rest] & _ & H)];
    [exact H|discriminate H].
Qed.

Lemma parse_chars_shorter n :
  forall s, (String.length s <= n)%nat ->
  parse_chars s <> OutOfFuel /\
  forall str rest, parse_chars s = Returns (str, rest) ->
                   (String.length rest < String.length s)%nat.
Proof.
  induction n as [|n IH]; intros s Hn.
  { destruct s; [|simpl in Hn; lia]. split; [discriminate|]. discriminate. }
  destruct s as [|c s1]; [split; discriminate|].
  cbn [parse_chars String.length] in *.
  destruct (Ascii.eqb c dquote).
  { split; [discriminate|]. intros str rest H. inversion H. lia. }
  destruct (Ascii.eqb c backslash).
  - destruct s1 as [|e s2]; [split; discriminate|].
    cbn [String.length] in Hn.
    destruct (escaped e).
    + destruct (IH s2 ltac:(lia)) as [Hf Hr]. split.
      * intros H. apply consUnit_OutOfFuel in H. contradiction.
      * intros str rest H. apply consUnit_Returns in H as [str' H].
        apply Hr in H. cbn [String.length]. lia.
    + destruct (Ascii.eqb e "u"); [|split; discriminate].
      destruct s2 as [|h1 [|h2 [|h3 [|h4 s3]]]]; try (split; discriminate).
      cbn [String.length] in Hn |- *.
      destruct (hex4 h1 h2 h3 h4); [|split; discriminate].
      destruct (N.ltb _ _); [|split; discriminate].
      destruct (IH s3 ltac:(lia)) as [Hf Hr]. split.
      * intros H. apply consUnit_OutOfFuel in H. contradiction.
      * intros str rest H. apply consUnit_Returns in H as [str' H].
        apply Hr in H. lia.
  - destruct (N.ltb _ _); [split; discriminate|].
    destruct (IH s1 ltac:(lia)) as [Hf Hr]. split.
    + intros H. apply consUnit_OutOfFuel in H. contradiction.
    + intros str rest H. apply consUnit_Returns in H as [str' H].
      apply Hr in H. lia.
Qed.

Lemma parse_chars_fuel s : parse_chars s <> OutOfFuel.
Proof. apply (parse_chars_shorter (String.length s) s (le_n _)). Qed.

Lemma parse_chars_length s str rest :
  parse_chars s = Returns (str, rest) -> (String.length rest < String.length s)%nat.
Proof. apply (parse_chars_shorter (String.length s) s (le_n _)). Qed.

Lemma strip_length w s rest :
  strip w s = Some rest -> (String.length rest <= String.length s)%nat.
Proof.
  revert s. induction w as [|a w IH]; intros s H; simpl in H.
  - inversion H. lia.
  - destruct s as [|b s]; [discriminate|].
    destruct (Ascii.eqb a b); [|discriminate]. apply IH in H. simpl. lia.
Qed.

Lemma keyword_length w v s v' rest :
  keyword w v s = Returns (v', rest) -> (String.length rest <= String.length s)%nat.
Proof.
  unfold keyword. destruct (strip w s) eqn:E; intros H; inversion H; subst.
  eapply strip_length, E.
Qed.

Lemma keyword_fuel w v s : keyword w v s <> OutOfFuel.
Proof. unfold keyword. destruct (strip w s); discriminate. Qed.

Lemma digits_length s :
  String.length s = (String.length (fst (digits s)) + String.length (snd (digits s)))%nat.
Proof.
  induction s as [|c s IH]; [reflexivity|]. simpl.
  destruct (is_digit c); [|reflexivity].
  destruct (digits s) as [ds rest]. simpl in *. lia.
Qed.

Lemma digits1_length s ds rest :
  digits1 s = Returns (ds, rest) -> (String.length rest < String.length s)%nat.
Proof.
  unfold digits1. pose proof (digits_length s) as L.
  destruct (digits s) as [[|d ds'] rest']; intros H; inversion H; subst.
  simpl in L. lia.
Qed.

Lemma digits1_fuel s : digits1 s <> OutOfFuel.
Proof. unfold digits1. destruct (digits s) as [[|d ds'] rest']; discriminate. Qed.

Lemma parse_int_length s i rest :
  parse_int s = Returns (i, rest) -> (String.length rest < String.length s)%nat.
Proof.
  unfold parse_int. intros H.
  assert (Hd : digits1 s = Returns (i, rest) -> (String.length rest < String.length s)%nat)
    by apply digits1_length.
  destruct s as [|c s']; [auto|].
  destruct (Ascii.eqb_spec c "0") as [->|Hc].
  - inversion H. simpl. lia.
  - apply Hd. revert H. destruct c as [[] [] [] [] [] [] [] []]; try exact id.
    contradiction Hc. reflexivity.
Qed.

Lemma parse_int_fuel s : parse_int s <> OutOfFuel.
Proof.
  unfold parse_int. pose proof (digits1_fuel s) as Hd.
  destruct s as [|c s']; [exact Hd|].
  destruct c as [[] [] [] [] [] [] [] []]; try exact Hd. discriminate.
Qed.

Lemma parse_frac_length s f rest :
  parse_frac s = Returns (f, rest) -> (String.length rest <= String.length s)%nat.
Proof.
  unfold parse_frac. intros H.
  assert (Hsame : Returns (EmptyString, s) = Returns (f, rest) ->
                  (String.length rest <= String.length s)%nat).
  { intros E. inversion E. lia. }
  destruct s as [|c s']; [auto|].
  destruct (Ascii.eqb_spec c ".") as [->|Hc].
  - apply bind_Returns in H as ([ds r] & Hd & H). inversion H; subst.
    apply digits1_length in Hd. simpl. lia.
  - apply Hsame. revert H. destruct c as [[] [] [] [] [] [] [] []]; try exact id.
    contradiction Hc. reflexivity.
Qed.

Lemma parse_frac_fuel s : parse_frac s <> OutOfFuel.
Proof.
  unfold parse_frac. destruct s as [|c s']; [discriminate|].
  assert (Hd : (let* (ds, rest) := digits1 s' in Returns (String "." ds, rest)) <>
               (OutOfFuel : Outcome (string * string))).
  { intros H. apply bind_OutOfFuel in H as [H|([ds r] & _ & H)];
      [exact (digits1_fuel _ H)|discriminate H]. }
  destruct c as [[] [] [] [] [] [] [] []]; try discriminate. exact Hd.
Qed.

Lemma parse_exp_length s e rest :
  parse_exp s = Returns (e, rest) -> (String.length rest <= String.length s)%nat.
Proof.
  unfold parse_exp. destruct s as [|c s1]; [intros H; inversion H; lia|].
  destruct (_ || _); [|intros H; inversion H; lia].
  destruct s1 as [|sg s2]; [discriminate|].
  destruct (_ || _); intros H; apply bind_Returns in H as ([ds r] & Hd & H);
    inversion H; subst; apply digits1_length in Hd; simpl in *; lia.
Qed.

Lemma parse_exp_fuel s : parse_exp s <> OutOfFuel.
Proof.
  unfold parse_exp. destruct s as [|c s1]; [discriminate|].
  destruct (_ || _); [|discriminate].
  destruct s1 as [|sg s2]; [discriminate|].
  destruct (_ || _); intros H; apply bind_OutOfFuel in H as [H|([ds r] & _ & H)];
    try discriminate H; exact (digits1_fuel _ H).
Qed.

Lemma parse_number_fuel s : parse_number s <> OutOfFuel.
Proof.
  unfold parse_number.
  destruct (match s with String "-" s' => ("-", s') | _ => (EmptyString, s) end) as [sign s0].
  intros H.
  apply bind_OutOfFuel in H as [H|([i s1] & _ & H)]; [exact (parse_int_fuel _ H)|].
  apply bind_OutOfFuel in H as [H|([f s2] & _ & H)]; [exact (parse_frac_fuel _ H)|].
  apply bind_OutOfFuel in H as [H|([e s3] & _ & H)]; [exact (parse_exp_fuel _ H)|].
  discriminate H.
Qed.

Lemma parse_number_length s literal rest :
  parse_number s = Returns (literal, rest) -> (String.length rest < String.length s)%nat.
Proof.
  unfold parse_number.
  assert (Hs : (String.length
                  (snd (match s with String "-" s' => ("-", s') | _ => (EmptyString, s) end))
                <= String.length s)%nat).
  { destruct s as [|c s']; [simpl; lia|].
    destruct c as [[] [] [] [] [] [] [] []]; simpl; lia. }
  destruct (match s with String "-" s' => ("-", s') | _ => (EmptyString, s) end) as [sign s0].
  simpl in Hs. intros H.
  apply bind_Returns in H as ([i s1] & Hi & H). apply parse_int_length in Hi.
  apply bind_Returns in H as ([f s2] & Hf & H). apply parse_frac_length in Hf.
  apply bind_Returns in H as ([e s3] & He & H). apply parse_exp_length in He.
  inversion H; subst. lia.
Qed.

(** A successful call consumes some text. *)
Lemma parse_consumes n :
  (forall s v rest, parse_value n s = Returns (v, rest) ->
                    (String.length rest < String.length s)%nat) /\
  (forall s vs rest, parse_elements n s = Returns (vs, rest) ->
                     (String.length rest < String.length s)%nat) /\
  (forall s ps rest, parse_members n s = Returns (ps, rest) ->
                     (String.length rest < String.length s)%nat).
Proof.
  induction n as [|n (IHv & IHe & IHm)]; [repeat split; discriminate|].
  split; [|split].
  - intros s v rest. cbn [parse_value].
    pose proof (skip_ws_length s) as Hs.
    destruct (skip_ws s) as [|c r]; [discriminate|]. cbn [String.length] in Hs.
    destruct (Ascii.eqb c "[").
    { pose proof (skip_ws_length r) as Hr.
      destruct (startsWith "]" (skip_ws r)) as [r'|] eqn:E.
      - apply startsWith_length in E. intros H. inversion H; subst. lia.
      - intros H. apply bind_Returns in H as ([vs r'] & He & H).
        apply IHe in He. inversion H; subst. lia. }
    destruct (Ascii.eqb c "{").
    { pose proof (skip_ws_length r) as Hr.
      destruct (startsWith "}" (skip_ws r)) as [r'|] eqn:E.
      - apply startsWith_length in E. intros H. inversion H; subst. lia.
      - intros H. apply bind_Returns in H as ([ps r'] & Hm & H).
        apply IHm in Hm. inversion H; subst. lia. }
    destruct (Ascii.eqb c dquote).
    { intros H. apply bind_Returns in H as ([str r'] & Hc & H).
      apply parse_chars_length in Hc. inversion H; subst. lia. }
    destruct (Ascii.eqb c "n"); [intros H; apply keyword_length in H; lia|].
    destruct (Ascii.eqb c "t"); [intros H; apply keyword_length in H; lia|].
    destruct (Ascii.eqb c "f"); [intros H; apply keyword_length in H; lia|].
    destruct (_ || _); [|discriminate].
    intros H. apply bind_Returns in H as ([lit r'] & Hn & H).
    apply parse_number_length in Hn. cbn [String.length] in Hn. inversion H; subst. lia.
  - intros s vs rest. cbn [parse_elements].
    intros H. apply bind_Returns in H as ([v r] & Hv & H). apply IHv in Hv.
    pose proof (skip_ws_length r) as Hr.
    destruct (skip_ws r) as [|c r']; [discriminate|]. cbn [String.length] in Hr.
    destruct (Ascii.eqb c ",").
    { apply bind_Returns in H as ([vs' r''] & He & H). apply IHe in He.
      inversion H; subst. lia. }
    destruct (Ascii.eqb c "]"); [|discriminate]. inversion H; subst. lia.
  - intros s ps rest. cbn [parse_members].
    pose proof (skip_ws_length s) as Hs.
    destruct (startsWith dquote (skip_ws s)) as [r|] eqn:E; [|discriminate].
    apply startsWith_length in E.
    intros H. apply bind_Returns in H as ([key r1] & Hk & H). apply parse_chars_length in Hk.
    pose proof (skip_ws_length r1) as Hr1.
    destruct (startsWith ":" (skip_ws r1)) as [r2|] eqn:E2; [|discriminate].
    apply startsWith_length in E2.
    apply bind_Returns in H as ([v r3] & Hv & H). apply IHv in Hv.
    pose proof (skip_ws_length r3) as Hr3.
    destruct (skip_ws r3) as [|c r4]; [discriminate|]. cbn [String.length] in Hr3.
    destruct (Ascii.eqb c ",").
    { apply bind_Returns in H as ([ps' r5] & Hm & H). apply IHm in Hm.
      inversion H; subst. lia. }
    destruct (Ascii.eqb c "}"); [|discriminate]. inversion H; subst. lia.
Qed.

(** Twice the length of the text, and one more, is fuel enough. *)
Lemma parse_fuel n :
  (forall s, (2 * String.length s < n)%nat -> parse_value n s <> OutOfFuel) /\
  (forall s, (2 * String.length s + 1 < n)%nat -> parse_elements n s <> OutOfFuel) /\
  (forall s, (2 * String.length s + 1 < n)%nat -> parse_members n s <> OutOfFuel).
Proof.
  induction n as [|n (IHv & IHe & IHm)]; [repeat split; intros; lia|].
  split; [|split].
  - intros s Hn. cbn [parse_value].
    pose proof (skip_ws_length s) as Hs.
    destruct (skip_ws s) as [|c r]; [discriminate|]. cbn [String.length] in Hs.
    destruct (Ascii.eqb c "[").
    { destruct (startsWith "]" (skip_ws r)); [discriminate|].
      intros H. apply bind_OutOfFuel in H as [H|([vs r'] & _ & H)]; [|discriminate H].
      revert H. apply IHe. lia. }
    destruct (Ascii.eqb c "{").
    { destruct (startsWith "}" (skip_ws r)); [discriminate|].
      intros H. apply bind_OutOfFuel in H as [H|([ps r'] & _ & H)]; [|discriminate H].
      revert H. apply IHm. lia. }
    destruct (Ascii.eqb c dquote).
    { intros H. apply bind_OutOfFuel in H as [H|([str r'] & _ & H)]; [|discriminate H].
      exact (parse_chars_fuel _ H). }
    destruct (Ascii.eqb c "n"); [apply keyword_fuel|].
    destruct (Ascii.eqb c "t"); [apply keyword_fuel|].
    destruct (Ascii.eqb c "f"); [apply keyword_fuel|].
    destruct (_ || _); [|discriminate].
    intros H. apply bind_OutOfFuel in H as [H|([lit r'] & _ & H)]; [|discriminate H].
    exact (parse_number_fuel _ H).
  - intros s Hn. cbn [parse_elements]. intros H.
    apply bind_OutOfFuel in H as [H|([v r] & Hv & H)].
    { revert H. apply IHv. lia. }
    apply (proj1 (parse_consumes n)) in Hv.
    pose proof (skip_ws_length r) as Hr.
    destruct (skip_ws r) as [|c r']; [discriminate|]. cbn [String.length] in Hr.
    destruct (Ascii.eqb c ",").
    { apply bind_OutOfFuel in H as [H|([vs r''] & _ & H)]; [|discriminate H].
      revert H. apply IHe. lia. }
    destruct (Ascii.eqb c "]"); discriminate.
  - intros s Hn. cbn [parse_members].
    pose proof (skip_ws_length s) as Hs.
    destruct (startsWith dquote (skip_ws s)) as [r|] eqn:E; [|discriminate].
    apply startsWith_length in E. intros H.
    apply bind_OutOfFuel in H as [H|([key r1] & Hk & H)]; [exact (parse_chars_fuel _ H)|].
    apply parse_chars_length in Hk.
    pose proof (skip_ws_length r1) as Hr1.
    destruct (startsWith ":" (skip_ws r1)) as [r2|] eqn:E2; [|discriminate].
    apply startsWith_length in E2.
    apply bind_OutOfFuel in H as [H|([v r3] & Hv & H)].
    { revert H. apply IHv. lia. }
    apply (proj1 (parse_consumes n)) in Hv.
    pose proof (skip_ws_length r3) as Hr3.
    destruct (skip_ws r3) as [|c r4]; [discriminate|]. cbn [String.length] in Hr3.
    destruct (Ascii.eqb c ",").
    { apply bind_OutOfFuel in H as [H|([ps r5] & _ & H)]; [|discriminate H].
      revert H. apply IHm. lia. }
    destruct (Ascii.eqb c "}"); discriminate.
Qed.

(** [JSON.parse] ends for every text: it returns a value, throws a
    SyntaxError, or meets a code unit outside the model. *)
Theorem parse_total text : parse text <> OutOfFuel.
Proof.
  unfold parse. intros H.
  apply bind_OutOfFuel in H as [H|([v rest] & _ & H)].
  - revert H. apply (proj1 (parse_fuel (fuel_for text))). unfold fuel_for. lia.
  - destruct (skip_ws rest); discriminate.
Qed.

(** [JSON.parse(JSON.stringify(v))] returns [v] with its dates as strings. *)
Theorem parse_stringify v : numberless v = true -> parse (stringify v) = Returns (plain v).
Proof.
  intros Hnum.
  pose proof (proj1 (parse_back (fuel_for (stringify v))) v "" (size_le_fuel v Hnum) Hnum) as H.
  rewrite app_empty_r in H. unfold parse. rewrite H. reflexivity.
Qed.

End JSONFacts.

(** ** Persistence *)

Import JSON.

Lemma itemValue_numberless item : numberless (itemValue item) = true.
Proof. destruct item as [? ? ? ? ? ? ? ? []]; reflexivity. Qed.

Lemma catalogValue_numberless items : numberless (catalogValue items) = true.
Proof.
  unfold catalogValue. cbn [numberless].
  induction items as [|item items IH]; [reflexivity|].
  cbn [List.map forallb]. rewrite itemValue_numberless, IH. reflexivity.
Qed.

Lemma asCategory_categoryName c : asCategory (VString (categoryName c)) = Some c.
Proof. destruct c; reflexivity. Qed.

(** Read at its type, the object written for an item and read back is the
    item with its date as a string. *)
Lemma asFoodItem_plain item : asFoodItem (plain (itemValue item)) = Some (storedItem item).
Proof. destruct item as [? ? ? [] ? ? ? ? []]; reflexivity. Qed.

Lemma asCatalog_plain items :
  asCatalog (plain (catalogValue items)) = Some (List.map storedItem items).
Proof.
  unfold catalogValue. cbn [plain asCatalog].
  induction items as [|item items IH]; [reflexivity|].
  cbn [List.map mapM]. rewrite asFoodItem_plain. simpl. rewrite IH. reflexivity.
Qed.

Lemma stringify_catalog_truthy items :
  JSString.truthy (stringify (catalogValue items)) = true.
Proof. reflexivity. Qed.

Lemma getItem_persist items ls :
  getItem "foodItems" (persist items ls) = Some (stringify (catalogValue items)).
Proof. unfold getItem, persist, setItem. apply lookup_insert_eq. Qed.

(** Once every date is a string, writing and reading back changes nothing. *)
Lemma storedItem_idempotent item : storedItem (storedItem item) = storedItem item.
Proof. destruct item as [? ? ? ? ? ? ? ? []]; reflexivity. Qed.

(** C5: writing the catalog to the store and starting again gives the
    catalog back.  The initializer returns, as [JSON.parse] built it, the
    array of the items with each [Date] replaced by its ISO string; read at
    the type of the catalog, that value is the original list, item by item
    and field by field, except that [postedAt] is the string the date was
    written as. *)
Theorem C5_restart_reproduces_catalog
    (items : list FoodItem.t) (ls : Storage) (date1 date2 : JSDate.t) :
  initFoodItems true (persist items ls) date1 date2 = Returns (plain (catalogValue items)) /\
  asCatalog (plain (catalogValue items)) = Some (List.map storedItem items) /\
  Forall2
    (fun item item' =>
       FoodItem.id item' = FoodItem.id item /\
       FoodItem.title item' = FoodItem.title item /\
       FoodItem.description item' = FoodItem.description item /\
       FoodItem.category item' = FoodItem.category item /\
       FoodItem.quantity item' = FoodItem.quantity item /\
       FoodItem.expiryDate item' = FoodItem.expiryDate item /\
       FoodItem.location item' = FoodItem.location item /\
       FoodItem.postedBy item' = FoodItem.postedBy item /\
       FoodItem.postedAt item' = storedPostedAt (FoodItem.postedAt item))
    items (List.map storedItem items).
Proof.
  split; [|split].
  - unfold initFoodItems. rewrite getItem_persist, stringify_catalog_truthy.
    apply JSONFacts.parse_stringify, catalogValue_numberless.
  - apply asCatalog_plain.
  - induction items as [|item items IH]; constructor; [|exact IH].
    repeat split.
Qed.

(** C1, as stated, fails: with a text in the store that is not JSON (here
    an array cut short), the initializer does not return the seed catalog;
    it ends with the SyntaxError of [JSON.parse]. *)
Lemma C1_unparseable_store_throws :
  parse "[{" = ThrowsSyntaxError /\
  initFoodItems true (storeHolding "[{") 0 0 = ThrowsSyntaxError /\
  initFoodItems true (storeHolding "[{") 0 0 <> Returns (catalogValue (seedCatalog 0 0)).
Proof.
  assert (H : initFoodItems true (storeHolding "[{") 0 0 = ThrowsSyntaxError).
  { unfold initFoodItems, getItem, storeHolding. rewrite lookup_singleton_eq. reflexivity. }
  split; [reflexivity|]. split; [exact H|]. rewrite H. discriminate.
Qed.

(** C1, amended: in a browser, with nothing stored under the key, or with
    the empty string stored, the catalog starts as the seed catalog of two
    items and nothing is thrown; any other stored text is handed to
    [JSON.parse], whose outcome, a SyntaxError included, is the outcome of
    the initializer. *)
Theorem C1_seed_when_absent_parse_otherwise
    (ls : Storage) (date1 date2 : JSDate.t) :
  (getItem "foodItems" ls = None \/ getItem "foodItems" ls = Some "" ->
   initFoodItems true ls date1 date2 = Returns (catalogValue (seedCatalog date1 date2)) /\
   length (seedCatalog date1 date2) = 2%nat) /\
  (forall text, getItem "foodItems" ls = Some text -> text <> "" ->
   initFoodItems true ls date1 date2 = parse text).
Proof.
  unfold initFoodItems. split.
  - intros [-> | ->]; split; reflexivity.
  - intros text -> Htext. destruct text; [contradiction|reflexivity].
Qed.

(** A first visit, with an empty store, starts from the seed; a store
    holding the empty array starts from the empty catalog. *)
Lemma C1_witness :
  initFoodItems true ∅ 1700000000000 1700000000001 =
    Returns (catalogValue (seedCatalog 1700000000000 1700000000001)) /\
  initFoodItems true (storeHolding "[]") 1700000000000 1700000000001 = Returns (VArray []).
Proof.
  split.
  - apply (C1_seed_when_absent_parse_otherwise ∅ 1700000000000 1700000000001).
    left. reflexivity.
  - rewrite (proj2 (C1_seed_when_absent_parse_otherwise (storeHolding "[]")
                      1700000000000 1700000000001) "[]").
    + reflexivity.
    + reflexivity.
    + discriminate.
Defined.

(** * Further properties of the component *)

(** ** The listing and its filters *)

Lemma list_items_app a b term sel :
  list_items (a ++ b) term sel = list_items a term sel ++ list_items b term sel.
Proof. unfold list_items. apply List.filter_app. Qed.

Lemma filter_filter {A} (f g : A -> bool) l :
  List.filter f (List.filter g l) = List.filter (fun x => g x && f x) l.
Proof.
  induction l as [|x l IH]; [reflexivity|]. simpl.
  destruct (g x); simpl; [destruct (f x)|]; congruence.
Qed.

Lemma filter_ext_in {A} (f g : A -> bool) l :
  (forall x, f x = g x) -> List.filter f l = List.filter g l.
Proof. intros H. induction l as [|x l IH]; [reflexivity|]. simpl. rewrite H, IH. reflexivity. Qed.

Lemma filter_sublist {A} (f : A -> bool) l : sublist (List.filter f l) l.
Proof.
  induction l as [|x l IH]; simpl; [constructor|].
  destruct (f x); [apply sublist_skip|apply sublist_cons]; exact IH.
Qed.

(** X1: The listing after a submission is the listing before it, followed by
    the new item when that item passes the search term and the category
    that are still selected: the handler switches to the listing without
    clearing either, so a new item can be missing from the list shown. *)
Theorem submit_then_listing (st : AppState) (dateNow : Z) (newDate : JSDate.t) :
  filteredItems (handleSubmitFoodItem dateNow newDate st) =
    filteredItems st ++
    (if matchesSearch (searchTerm st) (newItem dateNow newDate st) &&
        matchesCategory (selectedCategory st) (newItem dateNow newDate st)
     then [newItem dateNow newDate st] else []).
Proof. unfold filteredItems. simpl. rewrite list_items_app. reflexivity. Qed.

Lemma wide_occursIn_trans t s u : Wide.occursIn t s -> Wide.occursIn s u -> Wide.occursIn t u.
Proof.
  intros (b1 & a1 & ->) (b2 & a2 & ->). exists (b2 ++ b1), (a1 ++ a2).
  rewrite <- !app_assoc. reflexivity.
Qed.

Lemma wide_matchesSearch_narrow lower short long item :
  Wide.occursIn (lower short) (lower long) ->
  Wide.matchesSearch lower long item = true -> Wide.matchesSearch lower short item = true.
Proof.
  intros Hterm. rewrite !wide_matchesSearch_spec. unfold Wide.searchConstraint.
  intros [H|H]; [left|right]; exact (wide_occursIn_trans _ _ _ Hterm H).
Qed.

Lemma ofString_app s t : Wide.ofString (s +:+ t) = Wide.ofString s ++ Wide.ofString t.
Proof.
  induction s as [|c s IH]; [reflexivity|].
  rewrite JSStringFacts.app_cons. cbn [Wide.ofString]. rewrite IH. reflexivity.
Qed.

(** On the range U+0000 .. U+00FF the lower-case form of a term grows with
    the term. *)
Lemma lowered_term_grows_in_range before term after :
  Wide.occursIn (Wide.lowerFrom [] (Wide.ofString term))
                (Wide.lowerFrom [] (Wide.ofString (before +:+ term +:+ after))).
Proof.
  rewrite !lowerFrom_ofString, !JSStringFacts.toLowerCase_app, !ofString_app.
  eexists _, _. reflexivity.
Qed.

(** With the capital sigma it need not: the three capitals pi alpha sigma
    list nothing where the four capitals pi alpha sigma tau list the
    item. *)
Example longer_term_lists_more_after_sigma :
  Wide.list_itemsByTables [pastaItem] capitalPAS all = Some [] /\
  Wide.list_itemsByTables [pastaItem] (capitalPAS ++ [0x3A4]%N) all = Some [pastaItem].
Proof. split; vm_compute; reflexivity. Qed.

(** X2: Typing more adds no item when the lower-case form of the shorter
    term is a stretch of the lower-case form of the longer one: what is
    listed for the longer term is then found among what is listed for the
    shorter, in the same order, and filtering that shorter list with the
    longer term gives it.  This holds whatever [toLowerCase] computes; the
    condition is on the lower-case forms because a term can be a stretch
    of another without its lower-case form being one. *)
Theorem longer_term_narrows_listing_when_lowered_term_grows
    (lower : Wide.ustring -> Wide.ustring) (items : list Wide.FoodItem)
    (short long : Wide.ustring) (sel : CategoryFilter)
    (Hterm : Wide.occursIn (lower short) (lower long)) :
  Wide.list_items lower (Wide.list_items lower items short sel) long sel =
    Wide.list_items lower items long sel /\
  sublist (Wide.list_items lower items long sel) (Wide.list_items lower items short sel).
Proof.
  assert (E : Wide.list_items lower (Wide.list_items lower items short sel) long sel =
              Wide.list_items lower items long sel).
  { unfold Wide.list_items. rewrite filter_filter. apply filter_ext_in. intros item.
    destruct (Wide.matchesSearch lower long item) eqn:Hlong.
    - rewrite (wide_matchesSearch_narrow _ _ _ _ Hterm Hlong). simpl. apply andb_diag.
    - simpl. apply andb_false_r. }
  split; [exact E|]. rewrite <- E. apply filter_sublist.
Qed.

Lemma longer_term_narrows_listing_witness :
  Wide.occursIn (Wide.lowerFrom [] (Wide.ofString "pas")) (Wide.lowerFrom [] (Wide.ofString "PASTA")) /\
  Wide.list_items (Wide.lowerFrom [])
    (Wide.list_items (Wide.lowerFrom []) [pastaItem] (Wide.ofString "pas") all)
    (Wide.ofString "PASTA") all = [pastaItem].
Proof.
  assert (Hterm : Wide.occursIn (Wide.lowerFrom [] (Wide.ofString "pas"))
                                (Wide.lowerFrom [] (Wide.ofString "PASTA")))
    by (exists [], (Wide.ofString "ta"); vm_compute; reflexivity).
  split; [exact Hterm|].
  destruct (longer_term_narrows_listing_when_lowered_term_grows
              (Wide.lowerFrom []) [pastaItem] _ _ all Hterm) as [E _].
  rewrite E. vm_compute. reflexivity.
Defined.


Lemma lowerUnit_idempotent c : JSString.lowerUnit (JSString.lowerUnit c) = JSString.lowerUnit c.
Proof. destruct c as [[] [] [] [] [] [] [] []]; reflexivity. Qed.

Lemma toLowerCase_idempotent s :
  JSString.toLowerCase (JSString.toLowerCase s) = JSString.toLowerCase s.
Proof. induction s as [|c s IH]; [reflexivity|]. simpl. rewrite lowerUnit_idempotent, IH. reflexivity. Qed.

(** X3: The letter case of the search term does not matter: a term and its
    lower-case form list the same items. *)
Theorem listing_ignores_case_of_term
    (items : list FoodItem.t) (term : string) (sel : CategoryFilter) :
  list_items items (JSString.toLowerCase term) sel = list_items items term sel.
Proof. unfold list_items, matchesSearch. rewrite toLowerCase_idempotent. reflexivity. Qed.

Lemma list_sum_map_ext {A} (f g : A -> nat) l :
  (forall x, f x = g x) -> list_sum (List.map f l) = list_sum (List.map g l).
Proof. intros H. induction l as [|x l IH]; [reflexivity|]. simpl. rewrite H, IH. reflexivity. Qed.

Lemma list_sum_map_add {A} (f g : A -> nat) l :
  list_sum (List.map (fun x => (f x + g x)%nat) l) =
  (list_sum (List.map f l) + list_sum (List.map g l))%nat.
Proof. induction l as [|x l IH]; [reflexivity|]. simpl. rewrite IH. lia. Qed.

Lemma length_filter_category (item : FoodItem.t) :
  list_sum (List.map (fun c => if matchesCategory (only c) item then 1 else 0)%nat categoryPills) = 1%nat.
Proof. unfold matchesCategory. destruct (FoodItem.category item); reflexivity. Qed.

(** X4: The category pills cut the listing into six parts: what a pill lists
    is what "all" lists with the other categories taken out, every item
    listed under "all" is listed under exactly one pill, and so the six
    lists together are as long as the list for "all". *)
Theorem category_pills_partition_listing (items : list FoodItem.t) (term : string) :
  (forall c, list_items items term (only c) =
             List.filter (fun item => bool_decide (FoodItem.category item = c))
                         (list_items items term all)) /\
  (forall c item, item ∈ list_items items term (only c) <->
                  item ∈ list_items items term all /\ FoodItem.category item = c) /\
  length (list_items items term all) =
    list_sum (List.map (fun c => length (list_items items term (only c))) categoryPills).
Proof.
  assert (Hcat : forall c item, matchesCategory (only c) item = bool_decide (FoodItem.category item = c)).
  { intros c item. unfold matchesCategory. simpl.
    apply bool_decide_ext. split; [intros [= ->]; reflexivity | intros ->; reflexivity]. }
  assert (H1 : forall c, list_items items term (only c) =
             List.filter (fun item => bool_decide (FoodItem.category item = c))
                         (list_items items term all)).
  { intros c. unfold list_items. rewrite filter_filter. apply filter_ext_in. intros item.
    rewrite Hcat. unfold matchesCategory at 1. simpl. rewrite andb_true_r. reflexivity. }
  split; [exact H1|]. split.
  - intros c item. rewrite H1, !list_elem_of_In, List.filter_In, bool_decide_eq_true.
    reflexivity.
  - clear H1. unfold list_items. induction items as [|item items IH]; [reflexivity|].
    rewrite (list_sum_map_ext _
               (fun c => ((if matchesSearch term item && matchesCategory (only c) item
                           then 1 else 0) +
                          length (List.filter
                                    (fun item => matchesSearch term item &&
                                                 matchesCategory (only c) item) items))%nat)).
    2: { intros c. cbn [List.filter]. destruct (_ && _); reflexivity. }
    rewrite list_sum_map_add, <- IH. cbn [List.filter].
    assert (Hall : matchesCategory all item = true) by reflexivity.
    rewrite Hall, andb_true_r.
    destruct (matchesSearch term item); cbn [andb length].
    + rewrite length_filter_category. reflexivity.
    + replace (list_sum (List.map (fun _ : FoodCategory => 0%nat) categoryPills)) with 0%nat
        by reflexivity.
      reflexivity.
Qed.

(** ** The catalog along a run of events *)

Lemma foodItems_handle e st :
  foodItems (handle e st) =
  foodItems st ++ match e with Submit dateNow newDate => [newItem dateNow newDate st] | _ => [] end.
Proof. destruct e; simpl; rewrite ?app_nil_r; reflexivity. Qed.

Lemma run_cons e events st : run (e :: events) st = run events (handle e st).
Proof. reflexivity. Qed.

Lemma run_app events1 events2 st : run (events1 ++ events2) st = run events2 (run events1 st).
Proof. unfold run. apply fold_left_app. Qed.

(** X5: No handler removes, changes or reorders an item: the catalog of a
    state is the beginning of the catalog after any run of events, and the
    run makes it longer by the number of its submissions. *)
Theorem catalog_only_grows (events : list Event) (st : AppState) :
  foodItems st `prefix_of` foodItems (run events st) /\
  length (foodItems (run events st)) = (length (foodItems st) + length (readings events))%nat.
Proof.
  revert st. induction events as [|e events IH]; intros st.
  - split; [reflexivity|]. simpl. lia.
  - rewrite run_cons. destruct (IH (handle e st)) as [Hpre Hlen]. split.
    + etransitivity; [|exact Hpre]. rewrite foodItems_handle. apply prefix_app_r. reflexivity.
    + rewrite Hlen, foodItems_handle, length_app. destruct e; simpl; lia.
Qed.

(** The ids of the catalog after a run: the ids before it, then the clock
    readings of the submissions, in decimal. *)
Lemma ids_after_run events st :
  List.map FoodItem.id (foodItems (run events st)) =
  List.map FoodItem.id (foodItems st) ++ List.map Number_toString (readings events).
Proof.
  revert st. induction events as [|e events IH]; intros st.
  - simpl. rewrite app_nil_r. reflexivity.
  - rewrite run_cons, IH, foodItems_handle, List.map_app, <- app_assoc.
    destruct e; reflexivity.
Qed.

Lemma Number_toString_inj : Inj (=) (=) Number_toString.
Proof.
  intros a b H. unfold Number_toString in H. apply DecimalZ.to_int_inj.
  assert (Hnn : forall z, Z.to_int z <> Decimal.Pos Decimal.Nil /\ Z.to_int z <> Decimal.Neg Decimal.Nil).
  { intros [|p|p]; simpl; split; try discriminate;
      intros [= E]; exact (DecimalPos.Unsigned.to_uint_nonnil p E). }
  assert (E : NilZero.int_of_string (NilZero.string_of_int (Z.to_int a)) =
              NilZero.int_of_string (NilZero.string_of_int (Z.to_int b))) by congruence.
  rewrite !NilZero.isi in E by apply Hnn. congruence.
Qed.

Lemma StronglySorted_lt_NoDup (l : list Z) : StronglySorted Z.lt l -> NoDup l.
Proof.
  induction 1 as [|x l _ IH Hx]; constructor; [|exact IH].
  intros Hin. rewrite Forall_forall in Hx. specialize (Hx x Hin). lia.
Qed.

(** X6: With a clock that moves forward between submissions, ids stay
    distinct: when the ids of the catalog are the decimal forms of the
    integers [base], and [base] followed by the readings of the submissions
    is strictly increasing, no two items of the catalog after the run have
    the same id. *)
Theorem ids_distinct_while_clock_increases
    (events : list Event) (st : AppState) (base : list Z) :
  List.map FoodItem.id (foodItems st) = List.map Number_toString base ->
  StronglySorted Z.lt (base ++ readings events) ->
  uniqueIds (foodItems (run events st)).
Proof.
  intros Hbase Hsorted. unfold uniqueIds.
  rewrite ids_after_run, Hbase, <- List.map_app.
  apply (NoDup_fmap_2 Number_toString (Inj0 := Number_toString_inj)).
  apply StronglySorted_lt_NoDup, Hsorted.
Qed.

(** Two posts from the seed catalog, a minute apart. *)
Lemma ids_distinct_while_clock_increases_witness :
  uniqueIds (foodItems (run [ Login (Some donor);
                              Submit 1700000123456 1700000123456;
                              Submit 1700000183456 1700000183456 ]
                            (initialState (seedCatalog 1700000000000 1700000000000)))).
Proof.
  apply (ids_distinct_while_clock_increases _ _ [1; 2]).
  - reflexivity.
  - simpl. repeat (constructor; [|repeat (constructor; [lia|]); constructor]). constructor.
Defined.

(** ** The draft along a run of events *)

Lemma draftField_set f g value d :
  draftField f (Draft.set g value d) = if decide (g = f) then value else draftField f d.
Proof. destruct f, g; reflexivity. Qed.

(** X7: The draft is one register per field: after any run, a field holds the
    text last typed into it since the last submission (the empty text when
    nothing was typed since), whoever logged in or out meanwhile; the
    category holds the last choice, or fruits.  So the item a submission
    appends carries the last text of each field. *)
Theorem draft_holds_last_input (events : list Event) (st : AppState) :
  (forall f, draftField f (newFoodItem (run events st)) =
             lastTyped f events (draftField f (newFoodItem st))) /\
  Draft.category (newFoodItem (run events st)) =
    lastChosen events (Draft.category (newFoodItem st)) /\
  forall dateNow newDate,
    foodItems (run (events ++ [Submit dateNow newDate]) st) =
    foodItems (run events st) ++
    [ FoodItem.mk (Number_toString dateNow)
        (lastTyped Draft.Title events (Draft.title (newFoodItem st)))
        (lastTyped Draft.Description events (Draft.description (newFoodItem st)))
        (lastChosen events (Draft.category (newFoodItem st)))
        (lastTyped Draft.Quantity events (Draft.quantity (newFoodItem st)))
        (lastTyped Draft.ExpiryDate events (Draft.expiryDate (newFoodItem st)))
        (lastTyped Draft.Location events (Draft.location (newFoodItem st)))
        (posterName (currentUser (run events st)))
        (DateObject newDate) ].
Proof.
  assert (Hf : forall events st f, draftField f (newFoodItem (run events st)) =
                                   lastTyped f events (draftField f (newFoodItem st))).
  { clear. intros events. induction events as [|e events IH]; intros st f; [reflexivity|].
    rewrite run_cons, IH. destruct e; try reflexivity.
    - simpl. rewrite draftField_set. reflexivity.
    - destruct f; reflexivity. }
  assert (Hc : forall events st, Draft.category (newFoodItem (run events st)) =
                                 lastChosen events (Draft.category (newFoodItem st))).
  { clear. intros events. induction events as [|e events IH]; intros st; [reflexivity|].
    rewrite run_cons, IH. destruct e; try reflexivity.
    simpl. destruct name; reflexivity. }
  split; [apply Hf|]. split; [apply Hc|].
  intros dateNow newDate. rewrite run_app. simpl. unfold newItem.
  pose proof (Hf events st Draft.Title) as Ht.
  pose proof (Hf events st Draft.Description) as Hd.
  pose proof (Hf events st Draft.Quantity) as Hq.
  pose proof (Hf events st Draft.ExpiryDate) as He.
  pose proof (Hf events st Draft.Location) as Hl.
  cbn [draftField] in Ht, Hd, Hq, He, Hl.
  rewrite <- Ht, <- Hd, <- Hq, <- He, <- Hl, <- Hc. reflexivity.
Qed.

(** ** The store along a session *)

Lemma persist_persist items1 items2 ls : persist items2 (persist items1 ls) = persist items2 ls.
Proof. unfold persist, setItem. apply insert_insert_eq. Qed.

Lemma getItem_persist_other key items ls :
  key <> "foodItems" -> getItem key (persist items ls) = getItem key ls.
Proof. intros H. unfold getItem, persist, setItem. apply lookup_insert_ne. congruence. Qed.

Lemma init_after_persist items ls date1 date2 :
  initFoodItems true (persist items ls) date1 date2 = Returns (plain (catalogValue items)).
Proof.
  unfold initFoodItems. rewrite getItem_persist, stringify_catalog_truthy.
  apply JSONFacts.parse_stringify, catalogValue_numberless.
Qed.

(** A component that is gone stays gone, and its store as it is. *)
Lemma sessionPage_Unmounted accepts events ls :
  sessionPage accepts events (Unmounted ls) = Unmounted ls.
Proof. induction events as [|e events IH]; [reflexivity|exact IH]. Qed.

Lemma sessionPage_cons accepts e events page :
  sessionPage accepts (e :: events) page = sessionPage accepts events (dispatchPage accepts e page).
Proof. reflexivity. Qed.

(** From a component whose store holds its catalog: while the writes
    succeed the store follows the catalog, and the write that fails leaves
    the catalog of the events before it. *)
Lemma sessionPage_mirrors accepts events st ls :
  match sessionPage accepts events (Running st (persist (foodItems st) ls)) with
  | Running st' ls' =>
      st' = run events st /\ ls' = persist (foodItems st') ls
  | Unmounted ls' =>
      exists done e rest, events = done ++ e :: rest /\ writesCatalog e = true /\
        ls' = persist (foodItems (run done st)) ls
  end.
Proof.
  revert st. induction events as [|e events IH]; intros st; [split; reflexivity|].
  rewrite sessionPage_cons. cbn [dispatchPage].
  destruct (writesCatalog e) eqn:Ew.
  - unfold runEffect, trySetItem. destruct (accepts _ _ _).
    + fold (persist (foodItems (handle e st)) (persist (foodItems st) ls)).
      rewrite persist_persist. specialize (IH (handle e st)).
      destruct (sessionPage _ _ _) as [st' ls'|ls'].
      * rewrite run_cons. exact IH.
      * destruct IH as (done & e' & rest & -> & He' & ->).
        exists (e :: done), e', rest. rewrite run_cons. auto.
    + rewrite sessionPage_Unmounted. exists [], e, events. auto.
  - assert (Hsame : foodItems (handle e st) = foodItems st)
      by (destruct e; try discriminate Ew; reflexivity).
    rewrite <- Hsame. specialize (IH (handle e st)).
    destruct (sessionPage _ _ _) as [st' ls'|ls'].
    + rewrite run_cons. exact IH.
    + destruct IH as (done & e' & rest & -> & He' & ->).
      exists (e :: done), e', rest. rewrite run_cons. auto.
Qed.

(** A store with room for 100 code units refuses the seed catalog at the
    first render; with room for 800 it takes the seed (534 with the key) and
    the first post (750) and refuses the second (967), which is lost; with
    room for 5000 it takes all. *)
Example write_refused_at_mount :
  mountPage (roomFor 100) (seedCatalog 1700000000000 1700000000000) ∅ = Unmounted ∅.
Proof. vm_compute. reflexivity. Qed.

Example second_post_lost :
  sessionPage (roomFor 800) twoPostsOneReading
    (mountPage (roomFor 800) (seedCatalog 1700000000000 1700000000000) ∅) =
  Unmounted (persist (foodItems (run (firstn 7 twoPostsOneReading)
                                     (initialState (seedCatalog 1700000000000 1700000000000)))) ∅).
Proof. vm_compute. reflexivity. Qed.

Example all_writes_taken :
  sessionPage (roomFor 5000) twoPostsOneReading
    (mountPage (roomFor 5000) (seedCatalog 1700000000000 1700000000000) ∅) =
  Running (run twoPostsOneReading (initialState (seedCatalog 1700000000000 1700000000000)))
          (persist (foodItems (run twoPostsOneReading
                                   (initialState (seedCatalog 1700000000000 1700000000000)))) ∅).
Proof. vm_compute. reflexivity. Qed.

(** X8: The store mirrors the catalog until a write is refused.  Whatever
    the browser takes or refuses: while the component is on the page its
    state is the one the handlers compute, the text under the key of the
    catalog is the JSON text of the catalog as it is now, and starting
    again from that store returns the catalog as it is now, the dates as
    ISO strings.  A refused write throws out of the effect and the
    component is gone: the store is then as it was at the start, when the
    first write was refused, or holds the catalog as it was before the
    submission whose write was refused, that submission lost.  In both
    cases every other key of the store is as it was. *)
Theorem store_mirrors_catalog_until_a_write_is_refused
    (accepts : QuotaPolicy) (items0 : list FoodItem.t) (ls : Storage)
    (events : list Event) (date1 date2 : JSDate.t) :
  match sessionPage accepts events (mountPage accepts items0 ls) with
  | Running st ls' =>
      st = run events (initialState items0) /\
      getItem "foodItems" ls' = Some (JSON.stringify (catalogValue (foodItems st))) /\
      (forall key, key <> "foodItems" -> getItem key ls' = getItem key ls) /\
      initFoodItems true ls' date1 date2 = Returns (plain (catalogValue (foodItems st))) /\
      asCatalog (plain (catalogValue (foodItems st))) = Some (List.map storedItem (foodItems st))
  | Unmounted ls' =>
      (forall key, key <> "foodItems" -> getItem key ls' = getItem key ls) /\
      (ls' = ls \/
       exists done dateNow newDate rest,
         events = done ++ Submit dateNow newDate :: rest /\
         ls' = persist (foodItems (run done (initialState items0))) ls)
  end.
Proof.
  unfold mountPage, runEffect, trySetItem. destruct (accepts _ _ _).
  - fold (persist (foodItems (initialState items0)) ls).
    pose proof (sessionPage_mirrors accepts events (initialState items0) ls) as H.
    destruct (sessionPage _ _ _) as [st ls'|ls'].
    + destruct H as [-> ->].
      split; [reflexivity|]. split; [apply getItem_persist|].
      split; [intros key Hkey; apply getItem_persist_other, Hkey|].
      split; [apply init_after_persist|apply asCatalog_plain].
    + destruct H as (done & e & rest & -> & He & ->).
      split; [intros key Hkey; apply getItem_persist_other, Hkey|].
      right. destruct e; try discriminate He. eexists _, _, _, _. split; reflexivity.
  - rewrite sessionPage_Unmounted. split; [reflexivity|left; reflexivity].
Qed.


(** ** The page and what a user can do to it *)

Lemma act_Some a st st' : act a st = Some st' -> control a ∈ render st /\ st' = perform a st.
Proof. unfold act. destruct (decide _); intros [= <-]; auto. Qed.

Lemma elem_of_map_inv {A B} (f : A -> B) l y : y ∈ List.map f l -> exists x, y = f x /\ x ∈ l.
Proof.
  rewrite list_elem_of_In, List.in_map_iff. intros (x & <- & Hx).
  exists x. rewrite list_elem_of_In. auto.
Qed.

Lemma TabButton_tabStrip tab user :
  TabButton tab ∈ tabStrip user -> tab ∈ ["listings"; "post"; "profile"].
Proof.
  unfold tabStrip. destruct (decide _); cbn [app];
    rewrite !elem_of_cons, !elem_of_nil; intros H; destruct_or!; simplify_eq; auto.
Qed.

Lemma TabButton_render tab st :
  TabButton tab ∈ render st -> tab ∈ ["listings"; "post"; "profile"].
Proof.
  unfold render. destruct (currentUser st) as [user|].
  - rewrite !elem_of_app. intros [H|[H|[H|[H|H]]]].
    + apply list_elem_of_singleton in H. discriminate.
    + eapply TabButton_tabStrip, H.
    + destruct (String.eqb _ _); [|inversion H].
      unfold listingsArea in H. rewrite !elem_of_app in H. destruct H as [H|[H|H]].
      * rewrite !elem_of_cons, elem_of_nil in H. intuition discriminate.
      * apply elem_of_map_inv in H as (c & H & _). discriminate.
      * apply elem_of_map_inv in H as (c & H & _). discriminate.
    + destruct (String.eqb _ _); [|inversion H].
      unfold postArea in H. rewrite !elem_of_cons, elem_of_nil in H. intuition discriminate.
    + eapply TabButton_tabStrip, H.
  - rewrite !elem_of_cons, elem_of_nil. intuition discriminate.
Qed.

(** The submit button is on the page exactly when somebody is logged in
    and the active tab is the post tab, whatever the role. *)
Lemma SubmitButton_render st :
  SubmitButton ∈ render st <-> is_Some (currentUser st) /\ activeTab st = "post".
Proof.
  unfold render. destruct (currentUser st) as [user|].
  - rewrite !elem_of_app. split.
    + intros [H|[H|[H|[H|H]]]].
      * apply list_elem_of_singleton in H. discriminate.
      * unfold tabStrip in H. destruct (decide _); cbn [app] in H;
          rewrite ?elem_of_cons, elem_of_nil in H; intuition discriminate.
      * destruct (String.eqb _ _); [|inversion H].
        unfold listingsArea in H. rewrite !elem_of_app in H. destruct H as [H|[H|H]].
        -- rewrite !elem_of_cons, elem_of_nil in H. intuition discriminate.
        -- apply elem_of_map_inv in H as (c & H & _). discriminate.
        -- apply elem_of_map_inv in H as (c & H & _). discriminate.
      * destruct (String.eqb_spec (activeTab st) "post") as [E|E]; [|inversion H].
        split; [eexists; reflexivity|exact E].
      * unfold tabStrip in H. destruct (decide _); cbn [app] in H;
          rewrite ?elem_of_cons, elem_of_nil in H; intuition discriminate.
    + intros [_ ->]. right. right. right. left. simpl. unfold postArea.
      rewrite !elem_of_cons. intuition.
  - split.
    + rewrite !elem_of_cons, elem_of_nil. intuition discriminate.
    + intros [[u Hu] _]. discriminate.
Qed.

Lemma requiredFilledb_spec d : requiredFilledb d = true -> Draft.requiredFilled d.
Proof.
  unfold requiredFilledb, Draft.requiredFilled. rewrite !andb_true_iff.
  intros [[[[H1 H2] H3] H4] H5].
  repeat split; intros E; rewrite E in *; discriminate.
Qed.

Lemma uiReachable_invariant items0 st : uiReachable items0 st -> pageInvariant items0 st.
Proof.
  induction 1 as [|a st st' _ (Htab & Huser & added & Hitems & Hadded) Hact].
  - split; [simpl; rewrite !elem_of_cons; auto|]. split; [left; reflexivity|].
    exists []. split; [simpl; rewrite app_nil_r; reflexivity|constructor].
  - apply act_Some in Hact as [Hon ->].
    destruct a; cbn [perform control] in *;
      try (split; [exact Htab|]; split; [exact Huser|]; exists added; split; [exact Hitems|exact Hadded]).
    + split; [exact Htab|]. split; [right; eexists; reflexivity|]. exists added. auto.
    + split; [exact Htab|]. split; [left; reflexivity|]. exists added. auto.
    + split; [eapply TabButton_render, Hon|]. split; [exact Huser|]. exists added. auto.
    + destruct (requiredFilledb (newFoodItem st)) eqn:Hreq;
        [|split; [exact Htab|]; split; [exact Huser|]; exists added; auto].
      apply SubmitButton_render in Hon as [[user Hu] _].
      split; [simpl; rewrite !elem_of_cons; auto|]. split; [exact Huser|].
      exists (added ++ [newItem dateNow newDate st]). split.
      * simpl. rewrite Hitems, <- app_assoc. reflexivity.
      * apply Forall_app. split; [exact Hadded|]. constructor; [|constructor].
        apply requiredFilledb_spec in Hreq as (H1 & H2 & H3 & H4 & H5).
        destruct Huser as [Hnone|[role Hrole]]; [congruence|].
        unfold postedThroughForm. cbn [newItem FoodItem.postedBy FoodItem.title
          FoodItem.description FoodItem.quantity FoodItem.expiryDate FoodItem.location
          FoodItem.id FoodItem.postedAt].
        split; [rewrite Hrole; destruct role; unfold cannedNames; simpl;
                rewrite !elem_of_cons; auto|].
        repeat (split; [assumption|]). eauto.
Qed.

Lemma actAll_uiReachable items0 actions st st' :
  uiReachable items0 st -> actAll actions st = Some st' -> uiReachable items0 st'.
Proof.
  revert st. induction actions as [|a actions IH]; intros st Hst H; simpl in H.
  - injection H as <-. exact Hst.
  - destruct (act a st) as [st1|] eqn:E; [|discriminate].
    eapply IH; [|exact H]. eapply uiReachable_act; eauto.
Qed.

(** X9: Through the page, the tab cell only ever holds one of the three tab
    names, and the profile of the session is that of a donor, a receiver or
    an NGO: the role is never null. *)
Theorem page_keeps_tab_and_profile_canned (items0 : list FoodItem.t) (st : AppState) :
  uiReachable items0 st ->
  activeTab st ∈ ["listings"; "post"; "profile"] /\
  (currentUser st = None \/ exists role : Role, currentUser st = Some (profileOf (Some role))).
Proof. intros H. apply uiReachable_invariant in H as (Htab & Huser & _). auto. Qed.

(** X10: Every item added through the page is complete and attributed: it is
    posted under one of the three canned names, never as Anonymous (the
    form exists only for a logged-in user), holds text in each required
    field (the browser holds back the submit event otherwise), and is
    stamped by the clock.  The items the page started with are untouched
    and come first. *)
Theorem form_posts_are_complete_and_attributed (items0 : list FoodItem.t) (st : AppState) :
  uiReachable items0 st ->
  exists added, foodItems st = items0 ++ added /\ Forall postedThroughForm added.
Proof. intros H. apply uiReachable_invariant in H as (_ & _ & Hadded). exact Hadded. Qed.

(** After the donor's visit followed by a receiver's login, the tab is
    still the post tab and the profile is the receiver's. *)
Lemma page_keeps_tab_and_profile_canned_witness :
  let st0 := initialState (seedCatalog 1700000000000 1700000000001) in
  actAll receiverAfterDonor st0 = Some (performAll receiverAfterDonor st0) /\
  activeTab (performAll receiverAfterDonor st0) ∈ ["listings"; "post"; "profile"] /\
  (currentUser (performAll receiverAfterDonor st0) = None \/
   exists role : Role, currentUser (performAll receiverAfterDonor st0) = Some (profileOf (Some role))).
Proof.
  intros st0.
  assert (Hact : actAll receiverAfterDonor st0 = Some (performAll receiverAfterDonor st0))
    by (vm_compute; reflexivity).
  split; [exact Hact|].
  apply (page_keeps_tab_and_profile_canned (seedCatalog 1700000000000 1700000000001)).
  eapply actAll_uiReachable; [apply uiReachable_initial|exact Hact].
Defined.

(** The donor's soup is the one item added to the seed catalog. *)
Lemma form_posts_are_complete_and_attributed_witness :
  let st0 := initialState (seedCatalog 1700000000000 1700000000001) in
  actAll donorPostsSoup st0 = Some (performAll donorPostsSoup st0) /\
  length (foodItems (performAll donorPostsSoup st0)) = 3%nat /\
  exists added,
    foodItems (performAll donorPostsSoup st0) =
      seedCatalog 1700000000000 1700000000001 ++ added /\
    Forall postedThroughForm added.
Proof.
  intros st0.
  assert (Hact : actAll donorPostsSoup st0 = Some (performAll donorPostsSoup st0))
    by (vm_compute; reflexivity).
  split; [exact Hact|]. split; [reflexivity|].
  apply (form_posts_are_complete_and_attributed (seedCatalog 1700000000000 1700000000001)).
  eapply actAll_uiReachable; [apply uiReachable_initial|exact Hact].
Defined.

Lemma LogoutButton_render st : is_Some (currentUser st) -> LogoutButton ∈ render st.
Proof. intros [user Hu]. unfold render. rewrite Hu. apply elem_of_app. left. apply list_elem_of_singleton. reflexivity. Qed.

(** X11: Hiding the post tab does not keep a receiver from posting.  The form
    is guarded by the active tab alone, and neither logout nor login resets
    the tab or the draft: whenever the form is on the page with its
    required fields filled, a logout followed by a receiver's login leaves
    a page without a post tab button but with the form, and submitting it
    appends the draft typed before as an item posted by "Food Receiver". *)
Theorem receiver_inherits_post_form (st : AppState) (dateNow : Z) (newDate : JSDate.t) :
  SubmitButton ∈ render st ->
  requiredFilledb (newFoodItem st) = true ->
  let st' := handleLogin (Some receiver) (handleLogout st) in
  actAll [ClickLogout; ClickLogin receiver] st = Some st' /\
  (TabButton "post" ∉ render st') /\
  SubmitButton ∈ render st' /\
  act (PressSubmit dateNow newDate) st' = Some (handleSubmitFoodItem dateNow newDate st') /\
  foodItems (handleSubmitFoodItem dateNow newDate st') =
    foodItems st ++
    [ FoodItem.mk (Number_toString dateNow)
        (Draft.title (newFoodItem st)) (Draft.description (newFoodItem st))
        (Draft.category (newFoodItem st)) (Draft.quantity (newFoodItem st))
        (Draft.expiryDate (newFoodItem st)) (Draft.location (newFoodItem st))
        "Food Receiver" (DateObject newDate) ].
Proof.
  intros Hform Hreq st'.
  apply SubmitButton_render in Hform as [Huser Htab].
  assert (Hform' : SubmitButton ∈ render st').
  { apply SubmitButton_render. split; [eexists; reflexivity|exact Htab]. }
  split; [|split; [|split; [exact Hform'|split]]].
  - cbn [actAll]. unfold act at 1. cbn [control].
    rewrite decide_True by (apply LogoutButton_render, Huser).
    cbn [perform]. reflexivity.
  - unfold st', render. cbn [currentUser handleLogin handleLogout setCurrentUser activeTab].
    rewrite Htab. cbn [String.eqb Ascii.eqb Bool.eqb]. cbn [app].
    unfold tabStrip, postArea. rewrite decide_True by reflexivity. cbn [app].
    rewrite !elem_of_cons, elem_of_nil. intuition discriminate.
  - unfold act. cbn [control]. rewrite decide_True by exact Hform'.
    cbn [perform]. change (newFoodItem st') with (newFoodItem st). rewrite Hreq. reflexivity.
  - reflexivity.
Qed.

(** The donor of the scenario has filled the form; a receiver takes over
    and posts the donor's soup. *)
Lemma receiver_inherits_post_form_witness :
  actAll [ClickLogout; ClickLogin receiver] donorWithSoup =
    Some (handleLogin (Some receiver) (handleLogout donorWithSoup)) /\
  (TabButton "post" ∉ render (handleLogin (Some receiver) (handleLogout donorWithSoup))) /\
  List.map FoodItem.postedBy
    (foodItems (handleSubmitFoodItem 1700000123456 1700000123457
                  (handleLogin (Some receiver) (handleLogout donorWithSoup)))) =
    ["Local Grocer"; "Community Kitchen"; "Food Receiver"].
Proof.
  destruct (receiver_inherits_post_form donorWithSoup 1700000123456 1700000123457)
    as (Hacts & Hnotab & _ & _ & Hitems).
  - apply SubmitButton_render. split; [eexists; reflexivity|reflexivity].
  - reflexivity.
  - split; [exact Hacts|]. split; [exact Hnotab|]. rewrite Hitems. reflexivity.
Defined.

(** X12: The six category pills carry six different icons. *)
Theorem category_icons_differ : NoDup (List.map getCategoryIcon categoryPills).
Proof.
  unfold categoryPills. cbn [List.map getCategoryIcon].
  repeat (apply NoDup_cons_2; [rewrite ?elem_of_cons, elem_of_nil; intuition discriminate|]).
  apply NoDup_nil_2.
Qed.

(** ** Starting again, again *)

Lemma stringify_storedItem item :
  JSON.stringify (itemValue (storedItem item)) = JSON.stringify (itemValue item).
Proof. destruct item as [? ? ? ? ? ? ? ? []]; reflexivity. Qed.

Lemma stringify_stored_catalog items :
  JSON.stringify (catalogValue (List.map storedItem items)) = JSON.stringify (catalogValue items).
Proof.
  assert (E : List.map JSON.stringify (List.map itemValue (List.map storedItem items)) =
              List.map JSON.stringify (List.map itemValue items)).
  { induction items as [|item items IH]; [reflexivity|].
    cbn [List.map]. rewrite stringify_storedItem, IH. reflexivity. }
  unfold catalogValue. cbn [JSON.stringify]. rewrite E. reflexivity.
Qed.

(** X13: Starting again does not touch the store: the effect of the first
    render writes the catalog that was read back, and its text is the text
    that was there, so the dates of the items are those of the visit that
    posted them, however often the page is opened. *)
Theorem restart_writes_same_text (items : list FoodItem.t) (ls : Storage) :
  asCatalog (plain (catalogValue items)) = Some (List.map storedItem items) /\
  snd (mount (List.map storedItem items) (persist items ls)) = persist items ls /\
  List.map storedItem (List.map storedItem items) = List.map storedItem items.
Proof.
  split; [apply asCatalog_plain|]. split.
  - unfold mount. cbn [snd]. rewrite persist_persist. unfold persist.
    rewrite stringify_stored_catalog. reflexivity.
  - rewrite List.map_map. apply List.map_ext. apply storedItem_idempotent.
Qed.
